(** * static/script.js: the WebSocket client's connection lifecycle

    A shallow embedding of the page script: the four script variables
    ([conn], [pingInterval], [pongReceived], [pongTimeoutId]), the part of
    the page it writes to, and the part of the browser it talks to (the
    WebSocket objects it created, the active timers and the clock).  Every
    function of the script is a function on that state; handlers that can
    end in an uncaught exception return an [outcome]. *)

From Stdlib Require Import ZArith String Ascii DecimalString.
From stdpp Require Import base tactics option list.

Local Open Scope Z_scope.

(** ** JavaScript strings *)

(** A JS string is a sequence of UTF-16 code units. *)
Definition jsstring := list N.

Definition lit (s : string) : jsstring :=
  List.map N_of_ascii (list_ascii_of_string s).

(** Number-to-string conversion of a non-negative integer, as in
    ['Disconnected. Code: ' + e.code]. *)
Definition num_to_string (n : N) : jsstring :=
  lit (NilZero.string_of_uint (N.to_uint n)).

(** ECMAScript WhiteSpace and LineTerminator code points, the ones
    [String.prototype.trim] strips. *)
Definition is_white_space (c : N) : bool :=
  ((c =? 9) || (c =? 10) || (c =? 11) || (c =? 12) || (c =? 13) || (c =? 32)
   || (c =? 160) || (c =? 5760) || ((8192 <=? c) && (c <=? 8202))
   || (c =? 8232) || (c =? 8233) || (c =? 8239) || (c =? 8287)
   || (c =? 12288) || (c =? 65279))%N.

Fixpoint trim_start (s : jsstring) : jsstring :=
  match s with
  | c :: r => if is_white_space c then trim_start r else s
  | [] => []
  end.

Definition trim (s : jsstring) : jsstring :=
  rev (trim_start (rev (trim_start s))).

(** ** The browser side: WebSocket objects and timers *)

Inductive ready_state := CONNECTING | OPEN | CLOSING | CLOSED.

#[global] Instance ready_state_eq_dec : EqDecision ready_state.
Proof. solve_decision. Defined.

(** One WebSocket object.  [sent] are the text frames handed to the wire and
    [closes] the local [close] calls that started the closing handshake, each
    with the time of the call and its (code, reason) arguments if any. *)
Record websocket := {
  url : jsstring;
  readyState : ready_state;
  sent : list (Z * jsstring);
  closes : list (Z * option (N * jsstring))
}.

(** What a timer runs: [sendPing] (the interval), the arrow function of
    [sendPing] (the pong timeout), or [connect] (the reconnect). *)
Inductive callback := SendPing | PongTimeout | Connect.

#[global] Instance callback_eq_dec : EqDecision callback.
Proof. solve_decision. Defined.

(** An active timer.  Handles are positive integers, never reused; [every]
    is the period of a [setInterval] timer and [None] for [setTimeout]. *)
Record timer := {
  tid : positive;
  due : Z;
  cb : callback;
  every : option Z
}.

(** ** The state *)

Record state := {
  (* script variables *)
  conn : option nat;
  pingInterval : option positive;
  pongReceived : bool;
  pongTimeoutId : option positive;
  (* page: children of #log (newest first), #status, #connect, #text *)
  logctl : list jsstring;
  status : jsstring;
  connect_label : jsstring;
  text : jsstring;
  (* window.location *)
  protocol : jsstring;
  host : jsstring;
  (* browser: WebSocket objects by creation index, active timers in
     creation order, next timer handle, clock in ms *)
  sockets : list websocket;
  timers : list timer;
  next_tid : positive;
  now : Z
}.

Definition set_conn (c : option nat) (s : state) : state :=
  {| conn := c; pingInterval := pingInterval s; pongReceived := pongReceived s;
     pongTimeoutId := pongTimeoutId s; logctl := logctl s; status := status s;
     connect_label := connect_label s; text := text s; protocol := protocol s;
     host := host s; sockets := sockets s; timers := timers s;
     next_tid := next_tid s; now := now s |}.

Definition set_pingInterval (i : option positive) (s : state) : state :=
  {| conn := conn s; pingInterval := i; pongReceived := pongReceived s;
     pongTimeoutId := pongTimeoutId s; logctl := logctl s; status := status s;
     connect_label := connect_label s; text := text s; protocol := protocol s;
     host := host s; sockets := sockets s; timers := timers s;
     next_tid := next_tid s; now := now s |}.

Definition set_pongReceived (b : bool) (s : state) : state :=
  {| conn := conn s; pingInterval := pingInterval s; pongReceived := b;
     pongTimeoutId := pongTimeoutId s; logctl := logctl s; status := status s;
     connect_label := connect_label s; text := text s; protocol := protocol s;
     host := host s; sockets := sockets s; timers := timers s;
     next_tid := next_tid s; now := now s |}.

Definition set_pongTimeoutId (i : option positive) (s : state) : state :=
  {| conn := conn s; pingInterval := pingInterval s; pongReceived := pongReceived s;
     pongTimeoutId := i; logctl := logctl s; status := status s;
     connect_label := connect_label s; text := text s; protocol := protocol s;
     host := host s; sockets := sockets s; timers := timers s;
     next_tid := next_tid s; now := now s |}.

Definition set_logctl (l : list jsstring) (s : state) : state :=
  {| conn := conn s; pingInterval := pingInterval s; pongReceived := pongReceived s;
     pongTimeoutId := pongTimeoutId s; logctl := l; status := status s;
     connect_label := connect_label s; text := text s; protocol := protocol s;
     host := host s; sockets := sockets s; timers := timers s;
     next_tid := next_tid s; now := now s |}.

Definition set_ui (st lbl : jsstring) (s : state) : state :=
  {| conn := conn s; pingInterval := pingInterval s; pongReceived := pongReceived s;
     pongTimeoutId := pongTimeoutId s; logctl := logctl s; status := st;
     connect_label := lbl; text := text s; protocol := protocol s;
     host := host s; sockets := sockets s; timers := timers s;
     next_tid := next_tid s; now := now s |}.

Definition set_text (v : jsstring) (s : state) : state :=
  {| conn := conn s; pingInterval := pingInterval s; pongReceived := pongReceived s;
     pongTimeoutId := pongTimeoutId s; logctl := logctl s; status := status s;
     connect_label := connect_label s; text := v; protocol := protocol s;
     host := host s; sockets := sockets s; timers := timers s;
     next_tid := next_tid s; now := now s |}.

Definition set_sockets (l : list websocket) (s : state) : state :=
  {| conn := conn s; pingInterval := pingInterval s; pongReceived := pongReceived s;
     pongTimeoutId := pongTimeoutId s; logctl := logctl s; status := status s;
     connect_label := connect_label s; text := text s; protocol := protocol s;
     host := host s; sockets := l; timers := timers s;
     next_tid := next_tid s; now := now s |}.

Definition set_timers (l : list timer) (s : state) : state :=
  {| conn := conn s; pingInterval := pingInterval s; pongReceived := pongReceived s;
     pongTimeoutId := pongTimeoutId s; logctl := logctl s; status := status s;
     connect_label := connect_label s; text := text s; protocol := protocol s;
     host := host s; sockets := sockets s; timers := l;
     next_tid := next_tid s; now := now s |}.

Definition set_next_tid (i : positive) (s : state) : state :=
  {| conn := conn s; pingInterval := pingInterval s; pongReceived := pongReceived s;
     pongTimeoutId := pongTimeoutId s; logctl := logctl s; status := status s;
     connect_label := connect_label s; text := text s; protocol := protocol s;
     host := host s; sockets := sockets s; timers := timers s;
     next_tid := i; now := now s |}.

Definition set_now (t : Z) (s : state) : state :=
  {| conn := conn s; pingInterval := pingInterval s; pongReceived := pongReceived s;
     pongTimeoutId := pongTimeoutId s; logctl := logctl s; status := status s;
     connect_label := connect_label s; text := text s; protocol := protocol s;
     host := host s; sockets := sockets s; timers := timers s;
     next_tid := next_tid s; now := t |}.

(** ** Uncaught exceptions *)

(** A handler either runs to its end or stops at an uncaught exception, in
    the state it had reached. *)
Inductive outcome :=
| Done (s : state)
| Thrown (s : state).

Definition state_of (o : outcome) : state :=
  match o with Done s | Thrown s => s end.

Definition bind (o : outcome) (k : state -> outcome) : outcome :=
  match o with
  | Done s => k s
  | Thrown s => Thrown s
  end.

Notation "'doing' x <- e 'then' k" := (bind e (fun x => k))
  (at level 10, x name, e at level 100, k at level 200).

(** ** Browser primitives *)

(** [setTimeout(c, delay)] and [setInterval(c, delay)]: a fresh handle. *)
Definition set_timer (c : callback) (delay : Z) (rep : option Z) (s : state)
  : positive * state :=
  let tm := {| tid := next_tid s; due := now s + delay; cb := c; every := rep |} in
  (next_tid s, set_next_tid (Pos.succ (next_tid s)) (set_timers (timers s ++ [tm]) s)).

(** [clearTimeout(h)] and [clearInterval(h)]; [null] and handles of timers
    that are no longer active do nothing. *)
Definition clear_timer (h : option positive) (s : state) : state :=
  match h with
  | Some i => set_timers (filter (fun tm => tid tm ≠ i) (timers s)) s
  | None => s
  end.

Definition new_websocket (u : jsstring) : websocket :=
  {| url := u; readyState := CONNECTING; sent := []; closes := [] |}.

Definition set_readyState (r : ready_state) (k : websocket) : websocket :=
  {| url := url k; readyState := r; sent := sent k; closes := closes k |}.

Definition ws_readyState (w : nat) (s : state) : option ready_state :=
  readyState <$> sockets s !! w.

(** [ws.send(data)]: an exception while connecting, a frame when open,
    dropped without an exception when closing or closed. *)
Definition ws_send (w : nat) (data : jsstring) (s : state) : outcome :=
  match sockets s !! w with
  | Some k =>
      match readyState k with
      | CONNECTING => Thrown s
      | OPEN =>
          Done (set_sockets
                  (<[w := {| url := url k; readyState := OPEN;
                             sent := sent k ++ [(now s, data)];
                             closes := closes k |}]> (sockets s)) s)
      | CLOSING | CLOSED => Done s
      end
  | None => Done s
  end.

(** The effect of a [close] call whose arguments were accepted: nothing when
    the socket is closing or closed already, else the closing handshake
    starts. *)
Definition start_close (w : nat) (args : option (N * jsstring)) (s : state) : state :=
  match sockets s !! w with
  | Some k =>
      match readyState k with
      | CLOSING | CLOSED => s
      | CONNECTING | OPEN =>
          set_sockets
            (<[w := {| url := url k; readyState := CLOSING; sent := sent k;
                       closes := closes k ++ [(now s, args)] |}]> (sockets s)) s
      end
  | None => s
  end.

(** The close codes a script may pass: 1000, or 3000 to 4999. *)
Definition close_code_ok (code : N) : bool :=
  ((code =? 1000) || ((3000 <=? code) && (code <=? 4999)))%N.

Definition is_high_surrogate (c : N) : bool := ((55296 <=? c) && (c <=? 56319))%N.
Definition is_low_surrogate (c : N) : bool := ((56320 <=? c) && (c <=? 57343))%N.

(** Length in bytes of the UTF-8 encoding of a JS string; a surrogate pair
    is one code point of four bytes, a lone surrogate is replaced by U+FFFD
    (three bytes). *)
Fixpoint utf8_length_from (prev_high : bool) (s : jsstring) : N :=
  match s with
  | [] => 0
  | c :: r =>
      (if (c <? 128)%N then 1
       else if (c <? 2048)%N then 2
       else if is_low_surrogate c && prev_high then 1
       else 3)
      + utf8_length_from (is_high_surrogate c) r
  end%N.

Definition utf8_length (s : jsstring) : N := utf8_length_from false s.

(** [ws.close(code, reason)]: an InvalidAccessError exception unless [code]
    is 1000 or in the range 3000 to 4999, a SyntaxError exception when
    [reason] is longer than 123 bytes of UTF-8; only then the socket is
    looked at. *)
Definition ws_close (w : nat) (code : N) (reason : jsstring) (s : state) : outcome :=
  if negb (close_code_ok code) then Thrown s
  else if (123 <? utf8_length reason)%N then Thrown s
  else Done (start_close w (Some (code, reason)) s).

(** ** The script *)

Definition PING_INTERVAL_MS : Z := 60000.
Definition PONG_TIMEOUT_MS : Z := 5000.

(** [log(msg)]: a new first child of #log; beyond 100 children the last one
    goes. *)
Definition log (msg : jsstring) (s : state) : state :=
  let children := msg :: logctl s in
  set_logctl (if (100 <? length children)%nat then removelast children
              else children) s.

Definition update_ui (s : state) : state :=
  match conn s with
  | None => set_ui (lit "disconnected") (lit "Connect") s
  | Some _ => set_ui (lit "connected") (lit "Disconnect") s
  end.

(** A timer handle is a positive number, so [if (pingInterval)] tests
    against [null]. *)
Definition stopPingPong (s : state) : state :=
  let s1 := match pingInterval s with
            | Some i => set_pingInterval None (clear_timer (Some i) s)
            | None => s
            end in
  match pongTimeoutId s1 with
  | Some i => set_pongTimeoutId None (clear_timer (Some i) s1)
  | None => s1
  end.

Definition startPingPong (s : state) : state :=
  let s1 := stopPingPong s in
  let '(i, s2) := set_timer SendPing PING_INTERVAL_MS (Some PING_INTERVAL_MS) s1 in
  set_pingInterval (Some i) s2.

Definition sendPing (s : state) : outcome :=
  match conn s with
  | Some w =>
      if bool_decide (ws_readyState w s = Some OPEN) then
        doing s1 <- ws_send w (lit "ping") s then
        let s2 := set_pongReceived false s1 in
        let '(i, s3) := set_timer PongTimeout PONG_TIMEOUT_MS None s2 in
        Done (set_pongTimeoutId (Some i) s3)
      else Done s
  | None => Done s
  end.

(** The arrow function [sendPing] hands to [setTimeout]; its
    [conn.close(1008, "Pong timeout")] passes a code that [close] refuses. *)
Definition pong_timeout (s : state) : outcome :=
  if negb (pongReceived s) then
    let s1 := log (lit "Pong timeout! Disconnecting...") s in
    match conn s1 with
    | Some w => ws_close w 1008 (lit "Pong timeout") s1
    | None => Thrown s1
    end
  else Done s.

(** [conn.close()] has no argument for [close] to refuse. *)
Definition disconnect (s : state) : state :=
  match conn s with
  | Some w =>
      let s1 := log (lit "Disconnecting...") s in
      let s2 := start_close w None s1 in
      let s3 := set_conn None s2 in
      let s4 := stopPingPong s3 in
      update_ui s4
  | None => s
  end.

(** [connect()]: the handlers it installs on the new socket are
    [conn_onopen], [conn_onmessage], [conn_onclose] and [conn_onerror]
    below; they are the same closures over the script variables for every
    socket. *)
Definition connect (s : state) : state :=
  let s1 := disconnect s in
  let wsScheme := if bool_decide (protocol s1 = lit "https:") then lit "wss://"
                  else lit "ws://" in
  let wsUri := wsScheme ++ host s1 in
  let s2 := set_conn (Some (length (sockets s1)))
              (set_sockets (sockets s1 ++ [new_websocket wsUri]) s1) in
  log (lit "Connecting...") s2.

Definition conn_onopen (s : state) : state :=
  let s1 := log (lit "Connected.") s in
  let s2 := set_pongReceived true s1 in
  let s3 := startPingPong s2 in
  update_ui s3.

Definition conn_onmessage (data : jsstring) (s : state) : state :=
  let s1 := log (lit "Received: " ++ data) s in
  if bool_decide (data = lit "pong") then
    let s2 := clear_timer (pongTimeoutId s1) s1 in
    set_pongReceived true s2
  else s1.

Definition conn_onclose (code : N) (s : state) : state :=
  let s1 := log (lit "Disconnected. Code: " ++ num_to_string code) s in
  let s2 := set_conn None s1 in
  let s3 := stopPingPong s2 in
  let s4 := update_ui s3 in
  snd (set_timer Connect 5000 None s4).

Definition conn_onerror (s : state) : state :=
  let s1 := log (lit "WebSocket Error occurred.") s in
  stopPingPong s1.

(** The click handler of #connect. *)
Definition connect_click (s : state) : state :=
  let s1 := match conn s with
            | None => connect s
            | Some _ => disconnect s
            end in
  update_ui s1.

(** The click handler of #send.  With [conn] null, [conn.send] is a
    TypeError; the line has been logged by then.  [focus()] changes nothing
    of the state. *)
Definition send_click (s : state) : outcome :=
  let text_ := text s in
  if bool_decide (trim text_ = []) then Done s
  else
    let s1 := log (lit "Sending: " ++ text_) s in
    match conn s1 with
    | Some w =>
        doing s2 <- ws_send w text_ s1 then
        Done (set_text [] s2)
    | None => Thrown s1
    end.

(** The keyup handler of #text. *)
Definition text_keyup (keyCode : Z) (s : state) : outcome :=
  if bool_decide (keyCode = 13) then send_click s else Done s.

(** The page as the script finds it: the location, and what #log and #text
    hold (the markup is not among the sources). *)
Record document := {
  doc_protocol : jsstring;
  doc_host : jsstring;
  doc_log : list jsstring;
  doc_text : jsstring
}.

(** Running the script once: the variables' initial values and the final
    [update_ui()]. *)
Definition page_load (d : document) : state :=
  update_ui
    {| conn := None; pingInterval := None; pongReceived := true;
       pongTimeoutId := None; logctl := doc_log d; status := [];
       connect_label := []; text := doc_text d; protocol := doc_protocol d;
       host := doc_host d; sockets := []; timers := []; next_tid := 1%positive;
       now := 0 |}.

(** ** The event loop *)

(** The timer that runs next: the earliest due, the earlier created first
    among equals. *)
Fixpoint next_due (l : list timer) : option timer :=
  match l with
  | [] => None
  | tm :: r =>
      match next_due r with
      | Some tm' => if due tm' <? due tm then Some tm' else Some tm
      | None => Some tm
      end
  end.

Definition run_callback (c : callback) (s : state) : outcome :=
  match c with
  | SendPing => sendPing s
  | PongTimeout => pong_timeout s
  | Connect => Done (connect s)
  end.

(** After the callback of an interval timer (however it ended) the timer is
    set again, unless the callback cleared it. *)
Definition rearm (tm : timer) (period : Z) (s : state) : state :=
  if bool_decide (Exists (fun t => tid t = tid tm) (timers s)) then
    set_timers (filter (fun t => tid t ≠ tid tm) (timers s)
                ++ [{| tid := tid tm; due := now s + period; cb := cb tm;
                       every := Some period |}]) s
  else s.

Definition map_outcome (f : state -> state) (o : outcome) : outcome :=
  match o with
  | Done s => Done (f s)
  | Thrown s => Thrown (f s)
  end.

(** Timer [tm] runs, at its due time. *)
Definition fire (tm : timer) (s : state) : outcome :=
  let s0 := set_now (Z.max (now s) (due tm)) s in
  match every tm with
  | None =>
      run_callback (cb tm)
        (set_timers (filter (fun t => tid t ≠ tid tm) (timers s0)) s0)
  | Some period => map_outcome (rearm tm period) (run_callback (cb tm) s0)
  end.

(** What can happen to the page. *)
Inductive event :=
| Tick (t : Z)                          (* the clock reaches [t] *)
| Fire                                  (* the next due timer runs *)
| Click_connect
| Type_text (v : jsstring)              (* the user edits #text *)
| Click_send
| Keyup (keyCode : Z)
| Ws_open (w : nat)
| Ws_message (w : nat) (data : jsstring)
| Ws_close (w : nat) (code : N)
| Ws_error (w : nat).

(** One turn of the event loop; [None] when the event cannot happen in [s]:
    the clock does not run past a due timer or backwards, and a socket opens
    once, delivers messages while open, and raises error and close events
    until it is closed. *)
Definition step (e : event) (s : state) : option outcome :=
  match e with
  | Tick t =>
      if bool_decide (now s <= t ∧ Forall (fun tm => t <= due tm) (timers s))
      then Some (Done (set_now t s)) else None
  | Fire => (fun tm => fire tm s) <$> next_due (timers s)
  | Click_connect => Some (Done (connect_click s))
  | Type_text v => Some (Done (set_text v s))
  | Click_send => Some (send_click s)
  | Keyup k => Some (text_keyup k s)
  | Ws_open w =>
      match sockets s !! w with
      | Some k =>
          if bool_decide (readyState k = CONNECTING) then
            Some (Done (conn_onopen
                          (set_sockets (<[w := set_readyState OPEN k]> (sockets s)) s)))
          else None
      | None => None
      end
  | Ws_message w data =>
      if bool_decide (ws_readyState w s = Some OPEN)
      then Some (Done (conn_onmessage data s)) else None
  | Ws_close w code =>
      match sockets s !! w with
      | Some k =>
          if bool_decide (readyState k ≠ CLOSED) then
            Some (Done (conn_onclose code
                          (set_sockets (<[w := set_readyState CLOSED k]> (sockets s)) s)))
          else None
      | None => None
      end
  | Ws_error w =>
      match sockets s !! w with
      | Some k =>
          if bool_decide (readyState k ≠ CLOSED) then Some (Done (conn_onerror s))
          else None
      | None => None
      end
  end.

(** A sequence of turns; an uncaught exception ends its turn only. *)
Fixpoint run (es : list event) (s : state) : option state :=
  match es with
  | [] => Some s
  | e :: r =>
      match step e s with
      | Some o => run r (state_of o)
      | None => None
      end
  end.

(** The page left alone until time [t]: due timers run in order, then the
    clock stops at [t].  [fuel] bounds the number of timers run. *)
Fixpoint run_until (fuel : nat) (t : Z) (s : state) : option state :=
  match next_due (timers s) with
  | Some tm =>
      if due tm <=? t then
        match fuel with
        | O => None
        | S n => run_until n t (state_of (fire tm s))
        end
      else Some (set_now (Z.max (now s) t) s)
  | None => Some (set_now (Z.max (now s) t) s)
  end.

(** The timers of the heartbeat, and the pending reconnects. *)
Definition heartbeat_timers (s : state) : list timer :=
  filter (fun tm => cb tm ≠ Connect) (timers s).

Definition reconnects (s : state) : list timer :=
  filter (fun tm => cb tm = Connect) (timers s).

(** The timers the script sets. *)
Definition ping_timer (s : state) : timer :=
  {| tid := next_tid s; due := now s + PING_INTERVAL_MS; cb := SendPing;
     every := Some PING_INTERVAL_MS |}.

Definition pong_timer (s : state) : timer :=
  {| tid := next_tid s; due := now s + PONG_TIMEOUT_MS; cb := PongTimeout;
     every := None |}.

Definition reconnect_timer (s : state) : timer :=
  {| tid := next_tid s; due := now s + 5000; cb := Connect; every := None |}.

(** The current connection when it is open. *)
Definition open_conn (s : state) : option (nat * websocket) :=
  match conn s with
  | Some w =>
      match sockets s !! w with
      | Some k => if bool_decide (readyState k = OPEN) then Some (w, k) else None
      | None => None
      end
  | None => None
  end.

Definition add_sent (f : Z * jsstring) (k : websocket) : websocket :=
  {| url := url k; readyState := readyState k; sent := sent k ++ [f];
     closes := closes k |}.

(** Every frame handed to the wire so far, over all sockets. *)
Definition transmitted (s : state) : list (Z * jsstring) :=
  flat_map sent (sockets s).

(** ** The heartbeat invariant *)

(** What holds of the timers between two turns of the event loop: the
    heartbeat timers are the ones the script variables name, handles are
    never reused, a pending pong timeout is due before the next ping, and no
    timer is overdue. *)
Record inv (s : state) : Prop := {
  inv_interval : ∀ tm, tm ∈ timers s ->
    (cb tm = SendPing <-> pingInterval s = Some (tid tm));
  inv_pong : ∀ tm, tm ∈ timers s ->
    (cb tm = PongTimeout <-> pongTimeoutId s = Some (tid tm));
  inv_awaiting : ∀ tm, tm ∈ timers s -> cb tm = PongTimeout ->
    pongReceived s = false;
  inv_fresh : ∀ tm, tm ∈ timers s -> (tid tm < next_tid s)%positive;
  inv_handles : ∀ i, pingInterval s = Some i ∨ pongTimeoutId s = Some i ->
    (i < next_tid s)%positive;
  inv_order : ∀ tp ti, tp ∈ timers s -> ti ∈ timers s ->
    cb tp = PongTimeout -> cb ti = SendPing -> due tp < due ti;
  inv_clock : ∀ tm, tm ∈ timers s -> now s <= due tm;
  inv_every : ∀ tm, tm ∈ timers s ->
    every tm = match cb tm with
               | SendPing => Some PING_INTERVAL_MS
               | _ => None
               end
}.

(** ** More to say of a state *)

(** Socket [w] exists and has not had its close notification. *)
Definition live (w : nat) (s : state) : Prop :=
  ∃ k, sockets s !! w = Some k ∧ readyState k ≠ CLOSED.


(** What #status and #connect show. *)
Definition shows_disconnected (s : state) : Prop :=
  status s = lit "disconnected" ∧ connect_label s = lit "Connect".

Definition shows_connected (s : state) : Prop :=
  status s = lit "connected" ∧ connect_label s = lit "Disconnect".

(** The second invariant of the event loop: [conn] is a socket that exists
    and is not closed, a pending pong timeout has a connection to call
    [close] on, no two active timers share a handle, and the page shows "disconnected"
    whenever [conn] is null. *)
Record wf (s : state) : Prop := {
  wf_conn : ∀ w, conn s = Some w -> live w s;
  wf_pong : ∀ tm, tm ∈ timers s -> cb tm = PongTimeout -> conn s ≠ None;
  wf_nodup : NoDup (tid <$> timers s);
  wf_ui : conn s = None -> shows_disconnected s
}.

(** From [s] to [s'] no socket has sent anything: the sockets of [s] are
    still there with what they had sent, and the new ones have sent
    nothing. *)
Definition same_sent (s s' : state) : Prop :=
  (∀ w k, sockets s !! w = Some k ->
     ∃ k', sockets s' !! w = Some k' ∧ sent k' = sent k)
  ∧ (∀ w k', sockets s !! w = None -> sockets s' !! w = Some k' -> sent k' = []).

(** The one frame a turn may send. *)
Definition sends (s s' : state) (p : jsstring) : Prop :=
  ∃ w k t, conn s = Some w ∧ sockets s !! w = Some k ∧ readyState k = OPEN
           ∧ sockets s' = <[w := add_sent (t, p) k]> (sockets s).

(** ** Scenarios *)

(** A page served over plain http. *)
Definition a_page : document :=
  {| doc_protocol := lit "http:"; doc_host := lit "localhost:8080";
     doc_log := []; doc_text := [] |}.

(** The state of [a_page] after a sequence of events. *)
Definition after (es : list event) : state :=
  default (page_load a_page) (run es (page_load a_page)).

(** The page after a click on #connect and the open notification. *)
Definition connected_trace : list event := [Click_connect; Ws_open 0].

(** The same one minute later, the first ping sent. *)
Definition pinged_trace : list event := connected_trace ++ [Tick 60000; Fire].

(** The interval timer of [pinged_trace], set again after the first ping. *)
Definition ping_again : timer :=
  {| tid := 1; due := 120000; cb := SendPing; every := Some PING_INTERVAL_MS |}.

(** Connect, disconnect and connect again, in quick succession; the second
    socket opens while the first is still closing. *)
Definition replaced_trace : list event :=
  [Click_connect; Click_connect; Click_connect; Ws_open 1].

(** A reconnect timer replaces a connection the user has just made by
    hand. *)
Definition timer_replaced_trace : list event :=
  [Click_connect; Ws_close 0 1006; Tick 4999; Click_connect; Tick 5000; Fire;
   Ws_open 2].

(** ** Elementary facts *)

Lemma filter_ext_elem {A} (P Q : A -> Prop) `{!∀ x, Decision (P x)}
    `{!∀ x, Decision (Q x)} (l : list A) :
  (∀ x, x ∈ l -> (P x <-> Q x)) -> filter P l = filter Q l.
Proof.
  induction l as [|a l IH]; intros Hpq; [reflexivity|].
  rewrite !filter_cons.
  assert (Ha : P a <-> Q a) by (apply Hpq; left).
  assert (Hl : filter P l = filter Q l).
  { apply IH. intros x Hx. apply Hpq. by right. }
  destruct (decide (P a)), (decide (Q a)); rewrite ?Hl; tauto.
Qed.

Lemma filter_all {A} (P : A -> Prop) `{!∀ x, Decision (P x)} (l : list A) :
  (∀ x, x ∈ l -> P x) -> filter P l = l.
Proof.
  induction l as [|a l IH]; intros Hp; [reflexivity|].
  rewrite filter_cons_True by (apply Hp; left).
  f_equal. apply IH. intros x Hx. apply Hp. by right.
Qed.

Lemma filter_none {A} (P : A -> Prop) `{!∀ x, Decision (P x)} (l : list A) :
  (∀ x, x ∈ l -> ¬ P x) -> filter P l = [].
Proof.
  induction l as [|a l IH]; intros Hp; [reflexivity|].
  rewrite filter_cons_False by (apply Hp; left).
  apply IH. intros x Hx. apply Hp. by right.
Qed.

Lemma next_due_None (l : list timer) : next_due l = None -> l = [].
Proof.
  destruct l as [|tm r]; [done|]. simpl.
  destruct (next_due r) as [tm'|]; [|done].
  by destruct (due tm' <? due tm).
Qed.

Lemma next_due_Some (l : list timer) (tm : timer) :
  next_due l = Some tm -> tm ∈ l ∧ ∀ t, t ∈ l -> due tm <= due t.
Proof.
  revert tm. induction l as [|a r IH]; intros tm H; [done|].
  simpl in H. destruct (next_due r) as [tm'|] eqn:E.
  - destruct (IH tm' eq_refl) as [Hin Hmin].
    destruct (Z.ltb_spec (due tm') (due a)); simplify_eq.
    + split; [by right|]. intros t [->|Ht]%elem_of_cons; [lia|by apply Hmin].
    + split; [by left|]. intros t [->|Ht]%elem_of_cons; [lia|].
      specialize (Hmin t Ht). lia.
  - simplify_eq. apply next_due_None in E as ->.
    split; [by left|]. intros t ->%list_elem_of_singleton. lia.
Qed.

(** What the helpers leave alone. *)
Lemma update_ui_fields (s : state) :
  conn (update_ui s) = conn s ∧ pingInterval (update_ui s) = pingInterval s
  ∧ pongReceived (update_ui s) = pongReceived s
  ∧ pongTimeoutId (update_ui s) = pongTimeoutId s
  ∧ sockets (update_ui s) = sockets s ∧ timers (update_ui s) = timers s
  ∧ next_tid (update_ui s) = next_tid s ∧ now (update_ui s) = now s
  ∧ logctl (update_ui s) = logctl s ∧ text (update_ui s) = text s.
Proof. unfold update_ui. destruct (conn s) eqn:E; simpl; by rewrite ?E. Qed.

Lemma start_close_fields (w : nat) (a : option (N * jsstring)) (s : state) :
  conn (start_close w a s) = conn s
  ∧ pingInterval (start_close w a s) = pingInterval s
  ∧ pongReceived (start_close w a s) = pongReceived s
  ∧ pongTimeoutId (start_close w a s) = pongTimeoutId s
  ∧ timers (start_close w a s) = timers s
  ∧ next_tid (start_close w a s) = next_tid s ∧ now (start_close w a s) = now s
  ∧ logctl (start_close w a s) = logctl s.
Proof.
  unfold start_close. destruct (sockets s !! w) as [k|]; [|done].
  by destruct (readyState k).
Qed.

Lemma ws_send_fields (w : nat) (d : jsstring) (s : state) :
  let s' := state_of (ws_send w d s) in
  conn s' = conn s ∧ pingInterval s' = pingInterval s
  ∧ pongReceived s' = pongReceived s ∧ pongTimeoutId s' = pongTimeoutId s
  ∧ timers s' = timers s ∧ next_tid s' = next_tid s ∧ now s' = now s
  ∧ logctl s' = logctl s ∧ text s' = text s.
Proof.
  unfold ws_send. destruct (sockets s !! w) as [k|]; [|done].
  by destruct (readyState k).
Qed.

(** [stopPingPong], field by field. *)
Lemma stopPingPong_fields (s : state) :
  let s' := stopPingPong s in
  pingInterval s' = None ∧ pongTimeoutId s' = None
  ∧ conn s' = conn s ∧ pongReceived s' = pongReceived s
  ∧ sockets s' = sockets s ∧ next_tid s' = next_tid s ∧ now s' = now s
  ∧ logctl s' = logctl s.
Proof.
  unfold stopPingPong.
  destruct (pingInterval s) eqn:E1; simpl;
    destruct (pongTimeoutId s) eqn:E2; simpl; by rewrite ?E1, ?E2.
Qed.

Lemma stopPingPong_timers (s : state) :
  timers (stopPingPong s)
  = filter (fun tm => pingInterval s ≠ Some (tid tm)
                      ∧ pongTimeoutId s ≠ Some (tid tm)) (timers s).
Proof.
  unfold stopPingPong.
  destruct (pingInterval s) as [i|] eqn:E1; simpl;
    destruct (pongTimeoutId s) as [j|] eqn:E2; simpl.
  - rewrite list_filter_filter. apply filter_ext_elem. intros x _.
    split; [intros [? ?]; split; congruence|].
    intros [? ?]; split; congruence.
  - apply filter_ext_elem. intros x _. split; [|intros [? _]; congruence].
    intros ?; split; congruence.
  - apply filter_ext_elem. intros x _. split; [|intros [_ ?]; congruence].
    intros ?; split; congruence.
  - symmetry. apply filter_all. done.
Qed.

Ltac split_elem :=
  repeat match goal with
  | H : _ ∈ _ ++ _ |- _ => apply elem_of_app in H as [H|H]
  | H : _ ∈ [_] |- _ => apply list_elem_of_singleton in H; subst
  | H : _ ∈ [] |- _ => by apply elem_of_nil in H
  | H : _ ∈ filter _ _ |- _ => apply list_elem_of_filter in H as [? H]
  end.

(** The invariant survives whatever keeps the heartbeat variables and the
    clock, and only removes timers. *)
Lemma inv_frame (s s' : state) :
  pingInterval s' = pingInterval s -> pongReceived s' = pongReceived s ->
  pongTimeoutId s' = pongTimeoutId s -> (∀ tm, tm ∈ timers s' -> tm ∈ timers s) ->
  next_tid s' = next_tid s -> now s' = now s -> inv s -> inv s'.
Proof.
  intros E1 E2 E3 Hsub E4 E5 [].
  constructor; rewrite ?E1, ?E2, ?E3, ?E4, ?E5; eauto.
Qed.

Lemma inv_same (s s' : state) :
  pingInterval s' = pingInterval s -> pongReceived s' = pongReceived s ->
  pongTimeoutId s' = pongTimeoutId s -> timers s' = timers s ->
  next_tid s' = next_tid s -> now s' = now s -> inv s -> inv s'.
Proof.
  intros E1 E2 E3 E4 E5 E6. apply inv_frame; try done. by rewrite E4.
Qed.

Lemma inv_log (m : jsstring) (s : state) : inv s -> inv (log m s).
Proof. by apply inv_same. Qed.

Lemma inv_update_ui (s : state) : inv s -> inv (update_ui s).
Proof. destruct (update_ui_fields s) as (?&?&?&?&?&?&?&?&?). by apply inv_same. Qed.

Lemma inv_start_close (w : nat) (a : option (N * jsstring)) (s : state) :
  inv s -> inv (start_close w a s).
Proof. destruct (start_close_fields w a s) as (?&?&?&?&?&?&?&?). by apply inv_same. Qed.

Lemma inv_ws_send (w : nat) (d : jsstring) (s : state) :
  inv s -> inv (state_of (ws_send w d s)).
Proof. destruct (ws_send_fields w d s) as (?&?&?&?&?&?&?&?). by apply inv_same. Qed.

Lemma inv_page_load (d : document) : inv (page_load d).
Proof.
  apply inv_update_ui.
  constructor; simpl; try (intros; split_elem; fail).
  intros i [?|?]; congruence.
Qed.

(** Under the invariant [stopPingPong] leaves the pending reconnects, all of
    them, and nothing else. *)
Lemma stopPingPong_reconnects (s : state) :
  inv s -> timers (stopPingPong s) = reconnects s.
Proof.
  intros Hi. rewrite stopPingPong_timers. apply filter_ext_elem.
  intros tm Hin.
  pose proof (inv_interval s Hi tm Hin) as H1.
  pose proof (inv_pong s Hi tm Hin) as H2.
  destruct (cb tm).
  - split; [|done]. intros [Hn _]. destruct Hn. by apply H1.
  - split; [|done]. intros [_ Hn]. destruct Hn. by apply H2.
  - split; [done|]. intros _.
    split; intros Hx; [apply H1 in Hx|apply H2 in Hx]; done.
Qed.

Lemma inv_reconnects_only (s s' : state) :
  inv s -> pingInterval s' = None -> pongTimeoutId s' = None ->
  timers s' = reconnects s -> next_tid s' = next_tid s -> now s' = now s ->
  inv s'.
Proof.
  intros Hi E1 E2 E3 E4 E5.
  constructor; rewrite ?E1, ?E2, ?E3, ?E4, ?E5; unfold reconnects.
  - intros tm Hin. split_elem. split; congruence.
  - intros tm Hin. split_elem. split; congruence.
  - intros tm Hin. split_elem. congruence.
  - intros tm Hin. split_elem. by apply (inv_fresh s Hi).
  - intros i [?|?]; congruence.
  - intros tp ti Hp Ht. split_elem. congruence.
  - intros tm Hin. split_elem. by apply (inv_clock s Hi).
  - intros tm Hin. split_elem. by apply (inv_every s Hi).
Qed.

Lemma inv_stopPingPong (s : state) : inv s -> inv (stopPingPong s).
Proof.
  intros Hi. destruct (stopPingPong_fields s) as (?&?&?&?&?&?&?&?).
  apply (inv_reconnects_only s); try done. by apply stopPingPong_reconnects.
Qed.

Lemma heartbeat_reconnects_only (s s' : state) :
  timers s' = reconnects s -> heartbeat_timers s' = [].
Proof.
  intros E. unfold heartbeat_timers. rewrite E. apply filter_none.
  unfold reconnects. intros tm Hin. split_elem. tauto.
Qed.

Lemma reconnects_idem (s s' : state) :
  timers s' = reconnects s -> reconnects s' = reconnects s.
Proof.
  intros E. unfold reconnects at 1. rewrite E. apply filter_all.
  unfold reconnects. intros tm Hin. by split_elem.
Qed.

Lemma startPingPong_fields (s : state) :
  let s' := startPingPong s in
  pingInterval s' = Some (next_tid s) ∧ pongTimeoutId s' = None
  ∧ timers s' = timers (stopPingPong s) ++ [ping_timer s]
  ∧ next_tid s' = Pos.succ (next_tid s) ∧ now s' = now s
  ∧ pongReceived s' = pongReceived s ∧ conn s' = conn s
  ∧ sockets s' = sockets s ∧ logctl s' = logctl s.
Proof.
  destruct (stopPingPong_fields s) as (E1&E2&E3&E4&E5&E6&E7&E8).
  unfold startPingPong, set_timer, ping_timer. simpl.
  by rewrite E2, E3, E4, E5, E6, E7, E8.
Qed.

Lemma startPingPong_set_pongReceived (b : bool) (s : state) :
  startPingPong (set_pongReceived b s) = set_pongReceived b (startPingPong s).
Proof.
  unfold startPingPong, stopPingPong, set_timer. simpl.
  destruct (pingInterval s); simpl; by destruct (pongTimeoutId s).
Qed.

(** Gathers what the invariant says of the timers in the context. *)
Ltac inv_facts s Hi :=
  repeat match goal with
  | H : ?tm ∈ timers s |- _ =>
      pose proof (inv_interval s Hi tm H);
      pose proof (inv_pong s Hi tm H);
      pose proof (inv_awaiting s Hi tm H);
      pose proof (inv_fresh s Hi tm H);
      pose proof (inv_clock s Hi tm H);
      pose proof (inv_every s Hi tm H);
      revert H
  end; intros;
  pose proof (inv_handles s Hi).

Lemma inv_startPingPong (s : state) : inv s -> inv (startPingPong s).
Proof.
  intros Hi. destruct (startPingPong_fields s) as (E1&E2&E3&E4&E5&E6&_).
  rewrite (stopPingPong_reconnects s Hi) in E3. unfold reconnects in E3.
  constructor; rewrite ?E1, ?E2, ?E3, ?E4, ?E5, ?E6.
  - intros tm Hin. split_elem; [|done]. inv_facts s Hi.
    split; [congruence|]. intros [=]. lia.
  - intros tm Hin. split_elem; [|done]. split; congruence.
  - intros tm Hin. split_elem; [congruence|done].
  - intros tm Hin. split_elem; simpl; [|lia]. inv_facts s Hi. lia.
  - intros i [[=]|[=]]. lia.
  - intros tp ti Hp Ht. split_elem; simpl in *; congruence.
  - intros tm Hin. split_elem; simpl; [|unfold PING_INTERVAL_MS; lia].
    inv_facts s Hi. lia.
  - intros tm Hin. split_elem; simpl; [|done]. by apply (inv_every s Hi).
Qed.

Lemma inv_set_pongReceived_true (s : state) :
  inv s -> (∀ tm, tm ∈ timers s -> cb tm ≠ PongTimeout) ->
  inv (set_pongReceived true s).
Proof.
  intros Hi Hno. destruct Hi. constructor; simpl; try done.
  intros tm Hin Hcb. by destruct (Hno tm Hin).
Qed.

Lemma disconnect_fields (s : state) :
  conn s ≠ None ->
  let s' := disconnect s in
  conn s' = None ∧ pingInterval s' = None ∧ pongTimeoutId s' = None
  ∧ timers s' = timers (stopPingPong s) ∧ next_tid s' = next_tid s
  ∧ now s' = now s ∧ pongReceived s' = pongReceived s.
Proof.
  intros Hc. unfold disconnect. destruct (conn s) as [w|] eqn:E; [|done].
  set (s2 := start_close w None (log (lit "Disconnecting...") s)).
  destruct (start_close_fields w None (log (lit "Disconnecting...") s))
    as (_&F1&F2&F3&F4&F5&F6&_). fold s2 in F1, F2, F3, F4, F5, F6.
  simpl in *.
  destruct (update_ui_fields (stopPingPong (set_conn None s2)))
    as (G1&G2&G3&G4&_&G5&G6&G7&_).
  destruct (stopPingPong_fields (set_conn None s2)) as (K1&K2&K3&K4&_&K5&K6&_).
  rewrite G1, G2, G3, G4, G5, G6, G7, K1, K2, K3, K4, K5, K6.
  rewrite !stopPingPong_timers. simpl. rewrite F1, F2, F3, F4, F5, F6.
  done.
Qed.

Lemma inv_disconnect (s : state) : inv s -> inv (disconnect s).
Proof.
  intros Hi. unfold disconnect. destruct (conn s) as [w|]; [|done].
  apply inv_update_ui, inv_stopPingPong.
  apply (inv_same (start_close w None (log (lit "Disconnecting...") s))); try done.
  by apply inv_start_close, inv_log.
Qed.

Lemma inv_connect (s : state) : inv s -> inv (connect s).
Proof.
  intros Hi. apply inv_log.
  apply (inv_same (disconnect s)); try done. by apply inv_disconnect.
Qed.

Lemma inv_conn_onopen (s : state) : inv s -> inv (conn_onopen s).
Proof.
  intros Hi. unfold conn_onopen. apply inv_update_ui.
  rewrite startPingPong_set_pongReceived.
  apply inv_set_pongReceived_true.
  - by apply inv_startPingPong, inv_log.
  - destruct (startPingPong_fields (log (lit "Connected.") s)) as (_&_&E&_).
    rewrite E, (stopPingPong_reconnects _ (inv_log _ _ Hi)).
    unfold reconnects. intros tm Hin. split_elem; simpl; congruence.
Qed.

Lemma inv_conn_onmessage (d : jsstring) (s : state) :
  inv s -> inv (conn_onmessage d s).
Proof.
  intros Hi. unfold conn_onmessage.
  destruct (bool_decide (d = lit "pong")); [|by apply inv_log].
  set (s1 := log (lit "Received: " ++ d) s).
  assert (Hi1 : inv s1) by by apply inv_log.
  apply inv_set_pongReceived_true.
  - unfold clear_timer. destruct (pongTimeoutId s1) as [i|] eqn:E; [|done].
    apply (inv_frame s1); try done.
    simpl. intros tm Hin. by split_elem.
  - unfold clear_timer. destruct (pongTimeoutId s1) as [i|] eqn:E; simpl.
    + intros tm Hin Hcb. split_elem. subst s1. simpl in *.
      inv_facts s Hi. intuition congruence.
    + intros tm Hin Hcb. subst s1. simpl in *.
      inv_facts s Hi. intuition congruence.
Qed.

Lemma conn_onclose_fields (code : N) (s : state) :
  let s' := conn_onclose code s in
  conn s' = None ∧ pingInterval s' = None ∧ pongTimeoutId s' = None
  ∧ timers s' = timers (stopPingPong s) ++ [reconnect_timer s]
  ∧ next_tid s' = Pos.succ (next_tid s) ∧ now s' = now s
  ∧ pongReceived s' = pongReceived s ∧ sockets s' = sockets s.
Proof.
  unfold conn_onclose, set_timer, reconnect_timer. simpl.
  set (s2 := set_conn None (log _ s)).
  destruct (update_ui_fields (stopPingPong s2)) as (G1&G2&G3&G4&G5&G6&G7&G8&_).
  destruct (stopPingPong_fields s2) as (K1&K2&K3&K4&K5&K6&K7&_).
  rewrite G1, G2, G3, G4, G5, G6, G7, G8, K1, K2, K3, K4, K5, K6, K7.
  by rewrite !stopPingPong_timers.
Qed.

Lemma conn_onerror_fields (s : state) :
  let s' := conn_onerror s in
  conn s' = conn s ∧ pingInterval s' = None ∧ pongTimeoutId s' = None
  ∧ timers s' = timers (stopPingPong s) ∧ next_tid s' = next_tid s
  ∧ now s' = now s ∧ pongReceived s' = pongReceived s
  ∧ sockets s' = sockets s.
Proof.
  unfold conn_onerror.
  destruct (stopPingPong_fields (log (lit "WebSocket Error occurred.") s))
    as (K1&K2&K3&K4&K5&K6&K7&_).
  rewrite K1, K2, K3, K4, K5, K6, K7. by rewrite !stopPingPong_timers.
Qed.

Lemma inv_set_reconnect (s : state) :
  inv s -> inv (snd (set_timer Connect 5000 None s)).
Proof.
  intros Hi. constructor; simpl.
  - intros tm Hin. split_elem; [by apply (inv_interval s Hi)|]. simpl.
    pose proof (inv_handles s Hi (next_tid s)).
    split; [done|]. intros ?. assert (next_tid s < next_tid s)%positive by tauto. lia.
  - intros tm Hin. split_elem; [by apply (inv_pong s Hi)|]. simpl.
    pose proof (inv_handles s Hi (next_tid s)).
    split; [done|]. intros ?. assert (next_tid s < next_tid s)%positive by tauto. lia.
  - intros tm Hin. split_elem; [by apply (inv_awaiting s Hi)|done].
  - intros tm Hin. split_elem; simpl; [|lia]. inv_facts s Hi. lia.
  - intros i Hh. pose proof (inv_handles s Hi i Hh). lia.
  - intros tp ti Hp Ht. split_elem; try done. by apply (inv_order s Hi).
  - intros tm Hin. split_elem; simpl; [|lia]. by apply (inv_clock s Hi).
  - intros tm Hin. split_elem; simpl; [|done]. by apply (inv_every s Hi).
Qed.

Lemma inv_conn_onclose (code : N) (s : state) : inv s -> inv (conn_onclose code s).
Proof.
  intros Hi. unfold conn_onclose.
  apply inv_set_reconnect, inv_update_ui, inv_stopPingPong.
  by apply (inv_same s).
Qed.

Lemma inv_conn_onerror (s : state) : inv s -> inv (conn_onerror s).
Proof. intros Hi. by apply inv_stopPingPong, inv_log. Qed.

Create HintDb heartbeat discriminated.
#[local] Hint Resolve inv_log inv_update_ui inv_start_close inv_ws_send
  inv_stopPingPong inv_startPingPong inv_disconnect inv_connect
  inv_conn_onopen inv_conn_onmessage inv_conn_onclose inv_conn_onerror
  : heartbeat.

Lemma inv_connect_click (s : state) : inv s -> inv (connect_click s).
Proof.
  intros Hi. unfold connect_click. destruct (conn s); auto with heartbeat.
Qed.

Lemma inv_send_click (s : state) : inv s -> inv (state_of (send_click s)).
Proof.
  intros Hi. unfold send_click.
  destruct (bool_decide (trim (text s) = [])); [done|].
  set (s1 := log _ s). assert (Hi1 : inv s1) by (by apply inv_log).
  destruct (conn s1) as [w|]; [|done].
  pose proof (inv_ws_send w (text s) s1 Hi1) as Hi2.
  destruct (ws_send w (text s) s1) as [s2|s2]; simpl in *; [|done].
  by apply (inv_same s2).
Qed.

Lemma inv_text_keyup (k : Z) (s : state) : inv s -> inv (state_of (text_keyup k s)).
Proof.
  intros Hi. unfold text_keyup.
  destruct (bool_decide (k = 13)); [by apply inv_send_click|done].
Qed.

(** 1008 is not a code [close] takes, whatever the reason and the socket. *)
Lemma ws_close_1008 (w : nat) (reason : jsstring) (s : state) :
  ws_close w 1008 reason s = Thrown s.
Proof. reflexivity. Qed.

(** The pong timeout with the pong still missing logs and ends in an
    exception, with or without a connection; else it does nothing. *)
Lemma pong_timeout_awaiting (s : state) :
  pongReceived s = false ->
  pong_timeout s = Thrown (log (lit "Pong timeout! Disconnecting...") s).
Proof.
  intros Hp. unfold pong_timeout. rewrite Hp. cbn [negb].
  change (conn (log (lit "Pong timeout! Disconnecting...") s)) with (conn s).
  destruct (conn s); [apply ws_close_1008|done].
Qed.

Lemma pong_timeout_state (s : state) :
  state_of (pong_timeout s)
  = if pongReceived s then s else log (lit "Pong timeout! Disconnecting...") s.
Proof.
  destruct (pongReceived s) eqn:Hp; [|by rewrite pong_timeout_awaiting].
  unfold pong_timeout. by rewrite Hp.
Qed.

Lemma inv_pong_timeout (s : state) : inv s -> inv (state_of (pong_timeout s)).
Proof.
  intros Hi. rewrite pong_timeout_state.
  destruct (pongReceived s); auto with heartbeat.
Qed.

Lemma sendPing_open (s : state) (w : nat) (k : websocket) :
  open_conn s = Some (w, k) ->
  sendPing s
  = Done (set_pongTimeoutId (Some (next_tid s))
            (set_next_tid (Pos.succ (next_tid s))
               (set_timers (timers s ++ [pong_timer s])
                  (set_pongReceived false
                     (set_sockets (<[w := add_sent (now s, lit "ping") k]> (sockets s))
                        s))))).
Proof.
  unfold open_conn, sendPing, ws_readyState, ws_send.
  destruct (conn s) as [w'|]; [|done].
  destruct (sockets s !! w') as [k'|] eqn:E; [|done]. simpl.
  case_bool_decide as Hk; [|done]. intros [= -> ->].
  rewrite bool_decide_eq_true_2 by (by rewrite Hk).
  rewrite Hk. simpl. unfold add_sent. by rewrite Hk.
Qed.

Lemma sendPing_idle (s : state) : open_conn s = None -> sendPing s = Done s.
Proof.
  unfold open_conn, sendPing, ws_readyState.
  destruct (conn s) as [w|]; [|done].
  destruct (sockets s !! w) as [k|] eqn:E; simpl; [|done].
  case_bool_decide as Hk; [done|]. intros _.
  rewrite bool_decide_eq_false_2; [done|]. congruence.
Qed.

(** The same with the clock moved, as long as no timer becomes overdue. *)
Lemma inv_frame_clock (s s' : state) :
  pingInterval s' = pingInterval s -> pongReceived s' = pongReceived s ->
  pongTimeoutId s' = pongTimeoutId s -> (∀ tm, tm ∈ timers s' -> tm ∈ timers s) ->
  next_tid s' = next_tid s -> (∀ tm, tm ∈ timers s' -> now s' <= due tm) ->
  inv s -> inv s'.
Proof.
  intros E1 E2 E3 Hsub E4 Hc [].
  constructor; rewrite ?E1, ?E2, ?E3, ?E4; eauto.
Qed.

Ltac no_pong Hno :=
  match goal with
  | Hx : cb ?t = PongTimeout |- _ => exfalso; by eapply (Hno t)
  end.

Lemma inv_fire (s : state) (tm : timer) :
  inv s -> next_due (timers s) = Some tm -> inv (state_of (fire tm s)).
Proof.
  intros Hi Hn. apply next_due_Some in Hn as [Hin Hmin].
  pose proof (inv_clock s Hi tm Hin) as Hc.
  pose proof (inv_every s Hi tm Hin) as He.
  pose proof (inv_fresh s Hi tm Hin) as Hf.
  pose proof (inv_interval s Hi tm Hin) as Hiv.
  pose proof (inv_pong s Hi tm Hin) as Hpg.
  unfold fire. rewrite Z.max_r by done.
  set (s0 := set_now (due tm) s).
  assert (Hi0 : inv (set_timers (filter (λ t, tid t ≠ tid tm) (timers s0)) s0)).
  { apply (inv_frame_clock s); try done; simpl; intros t Ht; split_elem; auto. }
  destruct (cb tm) eqn:Ecb; rewrite He; cbv beta iota; unfold run_callback.
  - assert (Hno : ∀ t, t ∈ timers s -> cb t ≠ PongTimeout).
    { intros t Ht Hp. pose proof (inv_order s Hi t tm Ht Hin Hp Ecb).
      pose proof (Hmin t Ht). lia. }
    assert (Hone : ∀ t, t ∈ timers s -> cb t = SendPing -> tid t = tid tm).
    { intros t Ht Hp. apply (inv_interval s Hi t Ht) in Hp.
      pose proof (proj1 Hiv eq_refl). congruence. }
    destruct (open_conn s0) as [[w k]|] eqn:Eo.
    + rewrite (sendPing_open s0 w k Eo). simpl. unfold rearm. simpl.
      rewrite bool_decide_eq_true_2
        by (apply Exists_exists; exists tm; split; [apply elem_of_app; by left|done]).
      unfold PING_INTERVAL_MS, PONG_TIMEOUT_MS in *.
      constructor; simpl.
      * intros t Ht. split_elem; simpl.
        -- by apply (inv_interval s Hi).
        -- pose proof (inv_handles s Hi (next_tid s)).
           split; [done|]. intros ?.
           assert (next_tid s < next_tid s)%positive by tauto. lia.
        -- by rewrite Ecb.
      * intros t Ht. split_elem; simpl.
        -- pose proof (Hno t Ht). pose proof (inv_fresh s Hi t Ht).
           split; [done|]. intros [=]. lia.
        -- done.
        -- rewrite Ecb. split; [done|]. intros [=]. lia.
      * done.
      * intros t Ht. split_elem; simpl; try lia.
        pose proof (inv_fresh s Hi t Ht). lia.
      * intros i [Hh|[= <-]]; [|lia].
        pose proof (inv_handles s Hi i (or_introl Hh)). lia.
      * intros tp ti Hp Ht Hcp Hci.
        split_elem; simpl in *; try congruence;
          try no_pong Hno;
          try (unfold PONG_TIMEOUT_MS; lia).
        all: exfalso;
          match goal with
          | Hne : tid ?t ≠ tid _, Hs : cb ?t = SendPing |- _ =>
              apply Hne; by apply Hone
          end.
      * intros t Ht. split_elem; simpl; unfold PONG_TIMEOUT_MS; try lia.
        by apply Hmin.
      * intros t Ht. split_elem; simpl; try done.
        -- by apply (inv_every s Hi).
        -- by rewrite Ecb.
    + rewrite (sendPing_idle s0 Eo). simpl. unfold rearm. simpl.
      rewrite bool_decide_eq_true_2
        by (apply Exists_exists; by exists tm).
      unfold PING_INTERVAL_MS, PONG_TIMEOUT_MS in *.
      constructor; simpl.
      * intros t Ht. split_elem; simpl; [by apply (inv_interval s Hi)|].
        by rewrite Ecb.
      * intros t Ht. split_elem; simpl; [by apply (inv_pong s Hi)|].
        by rewrite Ecb.
      * intros t Ht Hp. split_elem; simpl in *; [|congruence].
        by apply (inv_awaiting s Hi t).
      * intros t Ht. split_elem; simpl; [|done]. by apply (inv_fresh s Hi).
      * apply (inv_handles s Hi).
      * intros tp ti Hp Ht Hcp Hci.
        split_elem; simpl in *; try congruence;
          no_pong Hno.
      * intros t Ht. split_elem; simpl; [by apply Hmin|lia].
      * intros t Ht. split_elem; simpl; [by apply (inv_every s Hi)|].
        by rewrite Ecb.
  - by apply inv_pong_timeout.
  - by apply inv_connect.
Qed.

Lemma inv_step (e : event) (s : state) (o : outcome) :
  inv s -> step e s = Some o -> inv (state_of o).
Proof.
  intros Hi. destruct e; simpl.
  - case_bool_decide as Ht; [|done]. intros [= <-]. destruct Ht as [_ Ht].
    rewrite Forall_forall in Ht. by apply (inv_frame_clock s).
  - destruct (next_due (timers s)) as [tm|] eqn:E; [|done].
    intros [= <-]. by apply inv_fire.
  - intros [= <-]. by apply inv_connect_click.
  - intros [= <-]. by apply (inv_same s).
  - intros [= <-]. by apply inv_send_click.
  - intros [= <-]. by apply inv_text_keyup.
  - destruct (sockets s !! w) as [k|]; [|done].
    case_bool_decide; [|done]. intros [= <-].
    apply inv_conn_onopen. by apply (inv_same s).
  - case_bool_decide; [|done]. intros [= <-]. by apply inv_conn_onmessage.
  - destruct (sockets s !! w) as [k|]; [|done].
    case_bool_decide; [|done]. intros [= <-].
    apply inv_conn_onclose. by apply (inv_same s).
  - destruct (sockets s !! w) as [k|]; [|done].
    case_bool_decide; [|done]. intros [= <-]. by apply inv_conn_onerror.
Qed.

Lemma inv_run (es : list event) (s s' : state) :
  inv s -> run es s = Some s' -> inv s'.
Proof.
  revert s. induction es as [|e r IH]; intros s Hi; simpl.
  - by intros [= <-].
  - destruct (step e s) as [o|] eqn:E; [|done].
    apply IH. by apply (inv_step e s).
Qed.

(** Every state the page can reach satisfies the invariant. *)
Lemma inv_reachable (d : document) (es : list event) (s : state) :
  run es (page_load d) = Some s -> inv s.
Proof. apply inv_run, inv_page_load. Qed.

(** ** The log control *)

Lemma log_head (m : jsstring) (s : state) : head (logctl (log m s)) = Some m.
Proof.
  unfold log. cbn [logctl set_logctl].
  destruct (logctl s) as [|x r]; [reflexivity|].
  by destruct (100 <? length (m :: x :: r))%nat.
Qed.

(** ** Inbound frames *)

Lemma conn_onmessage_pong (s : state) :
  inv s ->
  let s' := conn_onmessage (lit "pong") s in
  pongReceived s' = true ∧ pongTimeoutId s' = pongTimeoutId s
  ∧ pingInterval s' = pingInterval s
  ∧ timers s' = filter (fun tm => cb tm ≠ PongTimeout) (timers s).
Proof.
  intros Hi. unfold conn_onmessage. rewrite bool_decide_eq_true_2 by done.
  unfold clear_timer. cbn [pongTimeoutId log set_logctl].
  destruct (pongTimeoutId s) as [i|] eqn:E.
  - split; [done|]. split; [done|]. split; [done|].
    cbn [timers set_pongReceived set_timers set_logctl].
    apply filter_ext_elem. intros tm Hin.
    pose proof (inv_pong s Hi tm Hin) as Hp. rewrite E in Hp.
    split; intros Hx Hy; apply Hx; [apply Hp in Hy|apply Hp]; congruence.
  - split; [done|]. split; [done|]. split; [done|].
    cbn [timers set_pongReceived set_timers set_logctl].
    symmetry. apply filter_all. intros tm Hin.
    pose proof (inv_pong s Hi tm Hin) as Hp. rewrite E in Hp.
    intros Hy. by apply Hp in Hy.
Qed.

Lemma conn_onmessage_logctl (data : jsstring) (s : state) :
  logctl (conn_onmessage data s) = logctl (log (lit "Received: " ++ data) s).
Proof.
  unfold conn_onmessage. case_bool_decide; [|done].
  unfold clear_timer. cbn [pongTimeoutId log set_logctl].
  by destruct (pongTimeoutId s).
Qed.


(** C4: an inbound "pong" is logged once as received (before it is looked
    at), the pending pong timeout is cancelled and [pongReceived] becomes
    true, whether a ping was outstanding or not; any other frame is logged
    and leaves the heartbeat state as it was. *)
Theorem pong_is_logged_and_cancels_timeout
    (d : document) (es : list event) (s : state) (data : jsstring) :
  run es (page_load d) = Some s ->
  let s' := conn_onmessage data s in
  logctl s' = logctl (log (lit "Received: " ++ data) s)
  ∧ head (logctl s') = Some (lit "Received: " ++ data)
  ∧ (data = lit "pong" ->
       pongReceived s' = true
       ∧ timers s' = filter (fun tm => cb tm ≠ PongTimeout) (timers s)
       ∧ pingInterval s' = pingInterval s)
  ∧ (data ≠ lit "pong" ->
       timers s' = timers s ∧ pingInterval s' = pingInterval s
       ∧ pongReceived s' = pongReceived s
       ∧ pongTimeoutId s' = pongTimeoutId s).
Proof.
  intros Hi%inv_reachable s'. subst s'.
  split; [apply conn_onmessage_logctl|].
  split; [rewrite conn_onmessage_logctl; apply log_head|].
  split.
  - intros ->. by destruct (conn_onmessage_pong s Hi) as (?&?&?&?).
  - intros Hd. unfold conn_onmessage. by rewrite bool_decide_eq_false_2.
Qed.

Lemma pong_is_logged_and_cancels_timeout_witness :
  ∃ s, run pinged_trace (page_load a_page) = Some s
       ∧ length (filter (fun tm => cb tm = PongTimeout) (timers s)) = 1%nat
       ∧ head (logctl (conn_onmessage (lit "pong") s)) = Some (lit "Received: pong")
       ∧ pongReceived (conn_onmessage (lit "pong") s) = true
       ∧ filter (fun tm => cb tm = PongTimeout)
                (timers (conn_onmessage (lit "pong") s)) = [].
Proof.
  eexists. split; [vm_compute; reflexivity|].
  split; [vm_compute; reflexivity|].
  match goal with
  | |- context [conn_onmessage ?m ?s] =>
      destruct (pong_is_logged_and_cancels_timeout a_page pinged_trace s m)
        as (_ & Hh & Hp & _); [vm_compute; reflexivity|]
  end.
  split; [exact Hh|]. destruct (Hp eq_refl) as (Hr & Ht & _).
  split; [exact Hr|]. rewrite Ht. vm_compute. reflexivity.
Defined.

(** ** Sending *)

Lemma open_conn_Some (s : state) (w : nat) (k : websocket) :
  open_conn s = Some (w, k) ->
  conn s = Some w ∧ sockets s !! w = Some k ∧ readyState k = OPEN.
Proof.
  unfold open_conn. destruct (conn s) as [w'|]; [|done].
  destruct (sockets s !! w') as [k'|] eqn:E; [|done].
  case_bool_decide; [|done]. by intros [= <- <-].
Qed.

(** C9, as the script has it: blank text sends and logs nothing; other text
    goes out untrimmed as exactly one frame, is logged, and #text is
    emptied, when the current connection is open. *)
Theorem send_click_transmits_when_open (s : state) :
  (trim (text s) = [] -> send_click s = Done s)
  ∧ (trim (text s) ≠ [] -> ∀ w k, open_conn s = Some (w, k) ->
       ∃ s', send_click s = Done s'
             ∧ sockets s' = <[w := add_sent (now s, text s) k]> (sockets s)
             ∧ head (logctl s') = Some (lit "Sending: " ++ text s)
             ∧ text s' = []).
Proof.
  unfold send_click. split.
  - intros ->. by rewrite bool_decide_eq_true_2.
  - intros Ht w k (Hc & Hk & Ho)%open_conn_Some.
    rewrite bool_decide_eq_false_2 by done.
    set (s1 := log (lit "Sending: " ++ text s) s).
    change (conn s1) with (conn s). rewrite Hc. unfold ws_send.
    change (sockets s1) with (sockets s). rewrite Hk, Ho. cbn [bind].
    eexists. split; [reflexivity|].
    split; [unfold add_sent; by rewrite Ho|].
    split; [|done]. apply (log_head (lit "Sending: " ++ text s) s).
Qed.

Lemma send_click_transmits_when_open_witness :
  let sb := set_text (lit "   ") (page_load a_page) in
  let sh := set_text (lit "hi") (after connected_trace) in
  send_click sb = Done sb
  ∧ ∃ s', send_click sh = Done s' ∧ transmitted s' = [(0, lit "hi")].
Proof.
  intros sb sh.
  destruct (send_click_transmits_when_open sb) as [Hb _].
  destruct (send_click_transmits_when_open sh) as [_ Hh].
  split; [apply Hb; reflexivity|].
  edestruct Hh as (s' & E & Hs & _);
    [vm_compute; discriminate|vm_compute; reflexivity|].
  exists s'. split; [exact E|]. unfold transmitted. rewrite Hs.
  vm_compute. reflexivity.
Defined.

(** C9 as stated fails: with no connection, "hi" is not transmitted. *)
Lemma send_click_without_connection :
  let s := set_text (lit "hi") (page_load a_page) in
  trim (text s) = lit "hi"
  ∧ (∀ s', send_click s ≠ Done s')
  ∧ transmitted (state_of (send_click s)) = [].
Proof. split; [reflexivity|]. split; [|reflexivity]. intros s'. vm_compute. discriminate. Qed.

(** C10: with [conn] null and text that does not trim to nothing, the click
    handler of #send ends in an uncaught exception after it has logged the
    line; blank text alone is guarded. *)
Theorem send_click_throws_without_connection (s : state) :
  conn s = None ->
  (trim (text s) ≠ [] ->
     send_click s = Thrown (log (lit "Sending: " ++ text s) s))
  ∧ (trim (text s) = [] -> send_click s = Done s).
Proof.
  intros Hc. unfold send_click. split.
  - intros Ht. rewrite bool_decide_eq_false_2 by done.
    change (conn (log (lit "Sending: " ++ text s) s)) with (conn s).
    by rewrite Hc.
  - intros ->. by rewrite bool_decide_eq_true_2.
Qed.

Lemma send_click_throws_without_connection_witness :
  let s := set_text (lit "hi") (page_load a_page) in
  send_click s = Thrown (log (lit "Sending: hi") s).
Proof.
  intros s.
  destruct (send_click_throws_without_connection s eq_refl) as [Ht _].
  apply Ht. vm_compute. discriminate.
Defined.

(** ** Teardown *)

Lemma step_Ws_close (w : nat) (code : N) (s : state) (o : outcome) :
  step (Ws_close w code) s = Some o ->
  ∃ k, sockets s !! w = Some k ∧ readyState k ≠ CLOSED
       ∧ o = Done (conn_onclose code
                     (set_sockets (<[w := set_readyState CLOSED k]> (sockets s)) s)).
Proof.
  simpl. destruct (sockets s !! w) as [k|]; [|done].
  case_bool_decide; [|done]. intros [= <-]. by exists k.
Qed.

Lemma step_Ws_error (w : nat) (s : state) (o : outcome) :
  step (Ws_error w) s = Some o ->
  ∃ k, sockets s !! w = Some k ∧ readyState k ≠ CLOSED ∧ o = Done (conn_onerror s).
Proof.
  simpl. destruct (sockets s !! w) as [k|]; [|done].
  case_bool_decide; [|done]. intros [= <-]. by exists k.
Qed.

Lemma heartbeat_timers_stopPingPong (s : state) :
  inv s -> heartbeat_timers (stopPingPong s) = [].
Proof.
  intros Hi. apply (heartbeat_reconnects_only s). by apply stopPingPong_reconnects.
Qed.

Lemma conn_onclose_timers (code : N) (s : state) :
  inv s ->
  heartbeat_timers (conn_onclose code s) = []
  ∧ reconnects (conn_onclose code s) = reconnects s ++ [reconnect_timer s].
Proof.
  intros Hi. destruct (conn_onclose_fields code s) as (_&_&_&E&_).
  unfold heartbeat_timers, reconnects at 1. rewrite E, !filter_app.
  fold (heartbeat_timers (stopPingPong s)). fold (reconnects (stopPingPong s)).
  rewrite (heartbeat_timers_stopPingPong s Hi).
  rewrite (reconnects_idem s) by (by apply stopPingPong_reconnects).
  by rewrite filter_cons_False, filter_cons_True by (simpl; congruence).
Qed.

(** C6: once the connection is torn down, by the close notification or by
    [disconnect()] (on its own or inside [connect()]), the ping interval and
    any pending pong timeout are cancelled: no heartbeat timer is left. *)
Theorem no_heartbeat_timer_after_teardown
    (d : document) (es : list event) (s : state) :
  run es (page_load d) = Some s ->
  (∀ w code o, step (Ws_close w code) s = Some o ->
     heartbeat_timers (state_of o) = []
     ∧ pingInterval (state_of o) = None ∧ pongTimeoutId (state_of o) = None)
  ∧ (conn s ≠ None ->
     heartbeat_timers (disconnect s) = []
     ∧ pingInterval (disconnect s) = None ∧ pongTimeoutId (disconnect s) = None
     ∧ heartbeat_timers (connect s) = []).
Proof.
  intros Hi%inv_reachable. split.
  - intros w code o (k & Hk & Hn & ->)%step_Ws_close. simpl state_of.
    set (s1 := set_sockets _ s).
    assert (Hi1 : inv s1) by (by apply (inv_same s)).
    destruct (conn_onclose_fields code s1) as (_&E1&E2&_).
    split; [apply (conn_onclose_timers code s1 Hi1)|done].
  - intros Hc. destruct (disconnect_fields s Hc) as (_&E1&E2&E3&_).
    assert (Hd : heartbeat_timers (disconnect s) = []).
    { unfold heartbeat_timers. rewrite E3.
      by apply (heartbeat_timers_stopPingPong s). }
    done.
Qed.

Lemma no_heartbeat_timer_after_teardown_witness :
  ∃ o, step (Ws_close 0 1000) (after pinged_trace) = Some o
       ∧ length (heartbeat_timers (after pinged_trace)) = 2%nat
       ∧ heartbeat_timers (state_of o) = []
       ∧ heartbeat_timers (disconnect (after pinged_trace)) = [].
Proof.
  destruct (no_heartbeat_timer_after_teardown a_page pinged_trace
              (after pinged_trace) ltac:(vm_compute; reflexivity)) as [Hc Hd].
  eexists. split; [vm_compute; reflexivity|].
  split; [vm_compute; reflexivity|].
  match goal with
  | |- context [state_of ?o] =>
      destruct (Hc 0%nat 1000%N o ltac:(vm_compute; reflexivity)) as (Hh & _)
  end.
  split; [assumption|].
  by destruct (Hd ltac:(vm_compute; discriminate)) as (Hx & _).
Defined.

(** ** Transport errors *)

(** C8, as the script has it: the error notification logs a generic line
    and itself stops the heartbeat (both timers cancelled, both handles
    nulled); the connection and the pending reconnects are left as they
    are. *)
Theorem error_notification_stops_heartbeat
    (d : document) (es : list event) (s : state) (w : nat) (o : outcome) :
  run es (page_load d) = Some s -> step (Ws_error w) s = Some o ->
  ∃ s', o = Done s'
        ∧ head (logctl s') = Some (lit "WebSocket Error occurred.")
        ∧ heartbeat_timers s' = []
        ∧ pingInterval s' = None ∧ pongTimeoutId s' = None
        ∧ conn s' = conn s ∧ sockets s' = sockets s
        ∧ reconnects s' = reconnects s.
Proof.
  intros Hi%inv_reachable (k & Hk & Hn & ->)%step_Ws_error.
  exists (conn_onerror s). split; [done|].
  destruct (conn_onerror_fields s) as (E1&E2&E3&E4&_&_&_&E5).
  assert (Ht : timers (conn_onerror s) = reconnects s).
  { rewrite E4. by apply stopPingPong_reconnects. }
  split.
  { unfold conn_onerror.
    destruct (stopPingPong_fields (log (lit "WebSocket Error occurred.") s))
      as (_&_&_&_&_&_&_&->). apply log_head. }
  split; [by apply (heartbeat_reconnects_only s)|].
  repeat (split; [done|]). by apply reconnects_idem.
Qed.

Lemma error_notification_stops_heartbeat_witness :
  ∃ s', step (Ws_error 0) (after pinged_trace) = Some (Done s')
        ∧ heartbeat_timers s' = [] ∧ conn s' = Some 0%nat.
Proof.
  destruct (error_notification_stops_heartbeat a_page pinged_trace
              (after pinged_trace) 0 (Done (conn_onerror (after pinged_trace)))
              ltac:(vm_compute; reflexivity) ltac:(vm_compute; reflexivity))
    as (s' & E & _ & Hh & _ & _ & Hc & _).
  exists s'. split; [rewrite <- E; vm_compute; reflexivity|].
  split; [exact Hh|]. rewrite Hc. vm_compute. reflexivity.
Defined.

(** C8 as stated fails: the error notification alone cancels the ping
    interval that was running. *)
Lemma error_alone_cancels_heartbeat :
  heartbeat_timers (after connected_trace)
  = [ {| tid := 1; due := 60000; cb := SendPing; every := Some 60000 |} ]
  ∧ step (Ws_error 0) (after connected_trace)
    = Some (Done (conn_onerror (after connected_trace)))
  ∧ heartbeat_timers (conn_onerror (after connected_trace)) = [].
Proof. vm_compute. repeat split. Qed.

(** ** Reconnection *)

Lemma reconnects_stopPingPong (s : state) :
  inv s -> reconnects (stopPingPong s) = reconnects s.
Proof. intros Hi. by apply reconnects_idem, stopPingPong_reconnects. Qed.

Lemma reconnects_disconnect (s : state) :
  inv s -> reconnects (disconnect s) = reconnects s.
Proof.
  intros Hi. destruct (conn s) as [w|] eqn:Hc.
  - destruct (disconnect_fields s) as (_&_&_&E&_); [congruence|].
    unfold reconnects at 1. rewrite E. by apply reconnects_stopPingPong.
  - unfold disconnect. by rewrite Hc.
Qed.

Lemma reconnects_pong_timeout (s : state) :
  reconnects (state_of (pong_timeout s)) = reconnects s.
Proof. rewrite pong_timeout_state. by destruct (pongReceived s). Qed.

(** C5: whatever led to it (the peer, an error, a [close] of the page's
    own, or [disconnect()]), the close notification schedules exactly
    one [connect()] 5000 ms later, in every state the page can be in; the
    steps before it (error notification, pong timeout, [disconnect()])
    schedule none and cancel none. *)
Theorem every_close_schedules_one_reconnect
    (d : document) (es : list event) (s : state) (w : nat) (code : N)
    (o : outcome) :
  run es (page_load d) = Some s -> step (Ws_close w code) s = Some o ->
  reconnects (state_of o) = reconnects s ++ [reconnect_timer s]
  ∧ due (reconnect_timer s) = now s + 5000
  ∧ (∀ s1, run_callback (cb (reconnect_timer s)) s1 = Done (connect s1))
  ∧ reconnects (conn_onerror s) = reconnects s
  ∧ reconnects (state_of (pong_timeout s)) = reconnects s
  ∧ reconnects (disconnect s) = reconnects s.
Proof.
  intros Hi%inv_reachable (k & Hk & Hn & ->)%step_Ws_close.
  split.
  { simpl state_of. set (s1 := set_sockets _ s).
    assert (Hi1 : inv s1) by (by apply (inv_same s)).
    apply (conn_onclose_timers code s1 Hi1). }
  split; [done|]. split; [done|]. split.
  { destruct (conn_onerror_fields s) as (_&_&_&E&_).
    unfold reconnects at 1. rewrite E. by apply reconnects_stopPingPong. }
  split; [apply reconnects_pong_timeout|by apply reconnects_disconnect].
Qed.

Lemma every_close_schedules_one_reconnect_witness :
  ∃ o, step (Ws_close 0 1000) (after pinged_trace) = Some o
       ∧ reconnects (after pinged_trace) = []
       ∧ reconnects (state_of o)
         = [ {| tid := 3; due := 65000; cb := Connect; every := None |} ].
Proof.
  eexists. split; [vm_compute; reflexivity|].
  split; [vm_compute; reflexivity|].
  match goal with
  | |- context [state_of ?o] =>
      destruct (every_close_schedules_one_reconnect a_page pinged_trace
                  (after pinged_trace) 0 1000 o
                  ltac:(vm_compute; reflexivity) ltac:(vm_compute; reflexivity))
        as (Hr & _)
  end.
  rewrite Hr. vm_compute. reflexivity.
Defined.

(** ** The pong-timeout handle and the flag *)

(** C7, as the script has it: a pong timeout is pending only while
    [pongReceived] is false, and [pongTimeoutId] is then its handle.  The
    two variables are not cleared together: [sendPing] sets the handle and
    sets the flag to false, a pong sets the flag to true and cancels the
    timer but keeps the handle, and [stopPingPong] nulls the handle and
    keeps the flag. *)
Theorem pong_timeout_pending_only_while_waiting
    (d : document) (es : list event) (s : state) :
  run es (page_load d) = Some s ->
  (∀ tm, tm ∈ timers s -> cb tm = PongTimeout ->
     pongReceived s = false ∧ pongTimeoutId s = Some (tid tm))
  ∧ (∀ w k, open_conn s = Some (w, k) ->
       let s' := state_of (sendPing s) in
       pongReceived s' = false ∧ pongTimeoutId s' = Some (next_tid s)
       ∧ pong_timer s ∈ timers s')
  ∧ (let s' := conn_onmessage (lit "pong") s in
     pongReceived s' = true ∧ pongTimeoutId s' = pongTimeoutId s
     ∧ ∀ tm, tm ∈ timers s' -> cb tm ≠ PongTimeout)
  ∧ (let s' := stopPingPong s in
     pongReceived s' = pongReceived s ∧ pongTimeoutId s' = None
     ∧ ∀ tm, tm ∈ timers s' -> cb tm ≠ PongTimeout).
Proof.
  intros Hr. pose proof (inv_reachable d es s Hr) as Hi. split.
  { intros tm Hin Hcb. split; [by apply (inv_awaiting s Hi tm)|].
    by apply (inv_pong s Hi tm). }
  split.
  { intros w k Ho. rewrite (sendPing_open s w k Ho). simpl.
    split; [done|]. split; [done|]. apply elem_of_app. right. by left. }
  split.
  { destruct (conn_onmessage_pong s Hi) as (E1 & E2 & _ & E3).
    split; [done|]. split; [done|].
    rewrite E3. intros tm Hin. by split_elem. }
  destruct (stopPingPong_fields s) as (_&E1&_&E2&_).
  split; [done|]. split; [done|].
  rewrite (stopPingPong_reconnects s Hi). unfold reconnects.
  intros tm Hin. split_elem. congruence.
Qed.

Lemma pong_timeout_pending_only_while_waiting_witness :
  pongReceived (after pinged_trace) = false
  ∧ pongTimeoutId (after pinged_trace) = Some 2%positive.
Proof.
  destruct (pong_timeout_pending_only_while_waiting a_page pinged_trace
              (after pinged_trace) ltac:(vm_compute; reflexivity)) as (H & _).
  apply (H {| tid := 2; due := 65000; cb := PongTimeout; every := None |});
    [|reflexivity].
  replace (timers (after pinged_trace))
    with [ {| tid := 2; due := 65000; cb := PongTimeout; every := None |};
           {| tid := 1; due := 120000; cb := SendPing; every := Some 60000 |} ]
    by (vm_compute; reflexivity).
  left.
Defined.

(** C7 as stated fails: after a ping the handle is set while the flag is
    false; after the pong the flag is true while the handle is still set;
    [stopPingPong] clears the handle alone. *)
Lemma pong_handle_set_while_flag_false :
  pongTimeoutId (after pinged_trace) = Some 2%positive
  ∧ pongReceived (after pinged_trace) = false
  ∧ pongTimeoutId (after (pinged_trace ++ [Ws_message 0 (lit "pong")]))
    = Some 2%positive
  ∧ pongReceived (after (pinged_trace ++ [Ws_message 0 (lit "pong")])) = true
  ∧ pongTimeoutId (stopPingPong (after pinged_trace)) = None
  ∧ pongReceived (stopPingPong (after pinged_trace)) = false.
Proof. vm_compute. repeat split. Qed.

(** ** Superseded transports *)

Lemma disconnect_sockets (s : state) (w : nat) :
  conn s = Some w -> sockets (disconnect s) = sockets (start_close w None s).
Proof.
  intros Hc. unfold disconnect. rewrite Hc.
  set (s2 := start_close w None (log (lit "Disconnecting...") s)).
  destruct (update_ui_fields (stopPingPong (set_conn None s2))) as (_&_&_&_&->&_).
  destruct (stopPingPong_fields (set_conn None s2)) as (_&_&_&_&->&_).
  subst s2. unfold start_close. simpl.
  destruct (sockets s !! w) as [k|]; [|done]. by destruct (readyState k).
Qed.

(** C1, as the script has it: a newer [connect()] closes the transport it
    replaces, but the handlers do not look at which transport an event came
    from.  A close notification from a transport other than the current one
    sets [conn] to null (the current transport itself is left as it is),
    stops the heartbeat and schedules a reconnect 5000 ms later. *)
Theorem close_of_replaced_transport_tears_down
    (d : document) (es : list event) (s : state) (w cur : nat) (code : N)
    (o : outcome) :
  run es (page_load d) = Some s -> conn s = Some cur -> w ≠ cur ->
  step (Ws_close w code) s = Some o ->
  conn (state_of o) = None
  ∧ heartbeat_timers (state_of o) = []
  ∧ pingInterval (state_of o) = None ∧ pongTimeoutId (state_of o) = None
  ∧ reconnects (state_of o) = reconnects s ++ [reconnect_timer s]
  ∧ sockets (state_of o) !! cur = sockets s !! cur
  ∧ (∀ k, sockets s !! cur = Some k -> readyState k ≠ CLOSED ->
       conn (connect s) = Some (length (sockets s))
       ∧ ws_readyState cur (connect s) = Some CLOSING).
Proof.
  intros Hi%inv_reachable Hc Hne (k & Hk & Hn & ->)%step_Ws_close.
  simpl state_of. set (s1 := set_sockets _ s).
  assert (Hi1 : inv s1) by (by apply (inv_same s)).
  destruct (conn_onclose_fields code s1) as (E1&E2&E3&_&_&_&_&E4).
  destruct (conn_onclose_timers code s1 Hi1) as [E5 E6].
  split; [done|]. split; [done|]. split; [done|]. split; [done|].
  split; [done|]. split.
  { rewrite E4. subst s1. simpl. by rewrite list_lookup_insert_ne. }
  intros kc Hkc Hnc. unfold connect, ws_readyState.
  cbn [conn sockets log set_logctl set_conn set_sockets].
  rewrite (disconnect_sockets s cur Hc). unfold start_close. rewrite Hkc.
  assert (Hlt : (cur < length (sockets s))%nat) by (by eapply lookup_lt_Some).
  destruct (readyState kc) eqn:Er; try done;
    cbn [sockets set_sockets]; rewrite ?length_insert; (split; [done|]).
  - rewrite lookup_app_l by (by rewrite length_insert).
    by rewrite list_lookup_insert_eq.
  - rewrite lookup_app_l by (by rewrite length_insert).
    by rewrite list_lookup_insert_eq.
  - rewrite lookup_app_l by done. rewrite Hkc. simpl. by rewrite Er.
Qed.

Lemma close_of_replaced_transport_tears_down_witness :
  ∃ o, step (Ws_close 1 1000) (after timer_replaced_trace) = Some o
       ∧ conn (after timer_replaced_trace) = Some 2%nat
       ∧ conn (state_of o) = None
       ∧ heartbeat_timers (state_of o) = []
       ∧ ws_readyState 2 (state_of o) = Some OPEN.
Proof.
  eexists. split; [vm_compute; reflexivity|].
  split; [vm_compute; reflexivity|].
  match goal with
  | |- context [state_of ?o] =>
      destruct (close_of_replaced_transport_tears_down a_page timer_replaced_trace
                  (after timer_replaced_trace) 1 2 1000 o
                  ltac:(vm_compute; reflexivity) ltac:(vm_compute; reflexivity)
                  ltac:(discriminate) ltac:(vm_compute; reflexivity))
        as (Hc & Hh & _ & _ & _ & Hs & _)
  end.
  split; [assumption|]. split; [assumption|].
  unfold ws_readyState. rewrite Hs. vm_compute. reflexivity.
Defined.

(** C1 as stated fails: the second socket is the current connection and its
    heartbeat runs; the late close notification of the first socket clears
    [conn], cancels the ping interval and schedules a reconnect. *)
Lemma late_close_of_first_transport_not_ignored :
  conn (after replaced_trace) = Some 1%nat
  ∧ ws_readyState 0 (after replaced_trace) = Some CLOSING
  ∧ ws_readyState 1 (after replaced_trace) = Some OPEN
  ∧ timers (after replaced_trace)
    = [ {| tid := 1; due := 60000; cb := SendPing; every := Some 60000 |} ]
  ∧ run (replaced_trace ++ [Ws_close 0 1006]) (page_load a_page)
    = Some (after (replaced_trace ++ [Ws_close 0 1006]))
  ∧ conn (after (replaced_trace ++ [Ws_close 0 1006])) = None
  ∧ ws_readyState 1 (after (replaced_trace ++ [Ws_close 0 1006])) = Some OPEN
  ∧ timers (after (replaced_trace ++ [Ws_close 0 1006]))
    = [ {| tid := 2; due := 5000; cb := Connect; every := None |} ].
Proof. vm_compute. repeat split. Qed.

(** ** The heartbeat *)

Lemma conn_onopen_fields (s : state) :
  inv s ->
  let s' := conn_onopen s in
  conn s' = conn s ∧ pingInterval s' = Some (next_tid s)
  ∧ pongReceived s' = true ∧ pongTimeoutId s' = None
  ∧ timers s' = reconnects s ++ [ping_timer s]
  ∧ next_tid s' = Pos.succ (next_tid s) ∧ now s' = now s
  ∧ sockets s' = sockets s.
Proof.
  intros Hi. unfold conn_onopen. rewrite startPingPong_set_pongReceived.
  set (s1 := log (lit "Connected.") s).
  destruct (update_ui_fields (set_pongReceived true (startPingPong s1)))
    as (->&->&->&->&->&->&->&->&_).
  destruct (startPingPong_fields s1) as (E1&E2&E3&E4&E5&_&E6&E7&_).
  cbn [conn pingInterval pongReceived pongTimeoutId timers next_tid now sockets
       set_pongReceived].
  rewrite E1, E2, E3, E4, E5, E6, E7.
  rewrite (stopPingPong_reconnects s1) by (by apply inv_log).
  done.
Qed.

(** When the interval timer is the next to run, no pong timeout is pending
    and every other timer is a reconnect. *)
Lemma others_are_reconnects (s : state) (tm : timer) :
  inv s -> next_due (timers s) = Some tm -> cb tm = SendPing ->
  filter (fun t => tid t ≠ tid tm) (timers s) = reconnects s.
Proof.
  intros Hi [Hin Hmin]%next_due_Some Hcb. apply filter_ext_elem.
  intros t Ht.
  pose proof (proj1 (inv_interval s Hi tm Hin) Hcb) as Hp.
  pose proof (inv_interval s Hi t Ht) as Hq. rewrite Hp in Hq.
  split.
  - intros Hne. destruct (cb t) eqn:Et; try done.
    + destruct Hne. apply proj1 in Hq. specialize (Hq eq_refl). congruence.
    + pose proof (inv_order s Hi t tm Ht Hin Et Hcb).
      pose proof (Hmin t Ht). lia.
  - intros Et Heq. rewrite Heq in Hq. apply proj2 in Hq.
    specialize (Hq eq_refl). congruence.
Qed.

(** A tick of the interval timer on an open connection. *)
Lemma fire_ping_open (s : state) (tm : timer) (w : nat) (k : websocket) :
  inv s -> next_due (timers s) = Some tm -> cb tm = SendPing ->
  open_conn s = Some (w, k) ->
  ∃ s', fire tm s = Done s'
    ∧ conn s' = conn s
    ∧ sockets s' = <[w := add_sent (due tm, lit "ping") k]> (sockets s)
    ∧ pingInterval s' = pingInterval s
    ∧ pongReceived s' = false ∧ pongTimeoutId s' = Some (next_tid s)
    ∧ timers s'
      = reconnects s
        ++ [ {| tid := next_tid s; due := due tm + PONG_TIMEOUT_MS;
                cb := PongTimeout; every := None |};
             {| tid := tid tm; due := due tm + PING_INTERVAL_MS; cb := SendPing;
                every := Some PING_INTERVAL_MS |} ]
    ∧ next_tid s' = Pos.succ (next_tid s) ∧ now s' = due tm.
Proof.
  intros Hi Hn Hcb Ho. pose proof (others_are_reconnects s tm Hi Hn Hcb) as Hf.
  apply next_due_Some in Hn as [Hin Hmin].
  pose proof (inv_clock s Hi tm Hin) as Hc.
  pose proof (inv_every s Hi tm Hin) as He. rewrite Hcb in He.
  pose proof (inv_fresh s Hi tm Hin) as Hfr.
  unfold fire. rewrite Z.max_r, He by done.
  set (s0 := set_now (due tm) s). unfold run_callback. rewrite Hcb.
  rewrite (sendPing_open s0 w k Ho). cbn [map_outcome].
  eexists. split; [reflexivity|]. unfold rearm.
  cbn [timers set_pongTimeoutId set_next_tid set_timers].
  rewrite bool_decide_eq_true_2
    by (apply Exists_exists; exists tm; split; [apply elem_of_app; by left|done]).
  cbn [conn sockets pingInterval pongReceived pongTimeoutId timers next_tid now
       set_pongTimeoutId set_next_tid set_timers set_pongReceived set_sockets
       set_now s0].
  repeat (split; [done|]). split; [|done].
  rewrite filter_app, Hf, <- app_assoc. f_equal.
  rewrite filter_cons_True by (simpl; lia). rewrite filter_nil.
  unfold pong_timer. cbn [now next_tid set_now s0]. by rewrite Hcb.
Qed.

(** A tick of the interval timer without an open connection. *)
Lemma fire_ping_idle (s : state) (tm : timer) :
  inv s -> next_due (timers s) = Some tm -> cb tm = SendPing ->
  open_conn s = None ->
  ∃ s', fire tm s = Done s'
    ∧ conn s' = conn s ∧ sockets s' = sockets s
    ∧ pingInterval s' = pingInterval s
    ∧ pongReceived s' = pongReceived s ∧ pongTimeoutId s' = pongTimeoutId s
    ∧ timers s'
      = reconnects s
        ++ [ {| tid := tid tm; due := due tm + PING_INTERVAL_MS; cb := SendPing;
                every := Some PING_INTERVAL_MS |} ]
    ∧ next_tid s' = next_tid s ∧ now s' = due tm.
Proof.
  intros Hi Hn Hcb Ho. pose proof (others_are_reconnects s tm Hi Hn Hcb) as Hf.
  apply next_due_Some in Hn as [Hin Hmin].
  pose proof (inv_clock s Hi tm Hin) as Hc.
  pose proof (inv_every s Hi tm Hin) as He. rewrite Hcb in He.
  unfold fire. rewrite Z.max_r, He by done.
  set (s0 := set_now (due tm) s). unfold run_callback. rewrite Hcb.
  rewrite (sendPing_idle s0 Ho). cbn [map_outcome].
  eexists. split; [reflexivity|]. unfold rearm.
  rewrite bool_decide_eq_true_2 by (apply Exists_exists; by exists tm).
  cbn [conn sockets pingInterval pongReceived pongTimeoutId timers next_tid now
       set_timers set_now s0].
  repeat (split; [done|]). split; [|done]. by rewrite Hf, Hcb.
Qed.

Lemma step_Ws_open (w : nat) (s : state) (o : outcome) :
  step (Ws_open w) s = Some o ->
  ∃ k, sockets s !! w = Some k ∧ readyState k = CONNECTING
       ∧ o = Done (conn_onopen
                     (set_sockets (<[w := set_readyState OPEN k]> (sockets s)) s)).
Proof.
  simpl. destruct (sockets s !! w) as [k|]; [|done].
  case_bool_decide; [|done]. intros [= <-]. by exists k.
Qed.

Lemma heartbeat_timers_app (s : state) (l : list timer) :
  Forall (fun tm => cb tm ≠ Connect) l ->
  filter (fun tm => cb tm ≠ Connect) (reconnects s ++ l) = l.
Proof.
  intros Hl. rewrite filter_app. fold (heartbeat_timers s).
  rewrite (filter_all _ l) by (by apply Forall_forall).
  rewrite (filter_none _ (reconnects s)); [done|].
  unfold reconnects. intros tm Hin. split_elem. tauto.
Qed.

Lemma reconnects_app (s : state) (l : list timer) :
  Forall (fun tm => cb tm ≠ Connect) l ->
  filter (fun tm => cb tm = Connect) (reconnects s ++ l) = reconnects s.
Proof.
  intros Hl. rewrite filter_app.
  rewrite (filter_none _ l) by (by apply Forall_forall).
  rewrite app_nil_r. apply filter_all.
  unfold reconnects. intros tm Hin. by split_elem.
Qed.

(** C3: the open notification starts an interval of 60000 ms.  Each time it
    runs with the current connection open, "ping" is sent on it,
    [pongReceived] becomes false and a one-shot timer of 5000 ms is set for
    the pong timeout; with no open connection the tick sends nothing and
    sets no timer.  Either way the interval is due again 60000 ms later. *)
Theorem ping_every_minute_while_open
    (d : document) (es : list event) (s : state) :
  run es (page_load d) = Some s ->
  (∀ w o, step (Ws_open w) s = Some o ->
     heartbeat_timers (state_of o)
     = [ {| tid := next_tid s; due := now s + 60000; cb := SendPing;
            every := Some 60000 |} ])
  ∧ (∀ tm, next_due (timers s) = Some tm -> cb tm = SendPing ->
       ∃ s', step Fire s = Some (Done s') ∧ now s' = due tm
         ∧ reconnects s' = reconnects s
         ∧ match open_conn s with
           | Some (w, k) =>
               sockets s' = <[w := add_sent (due tm, lit "ping") k]> (sockets s)
               ∧ pongReceived s' = false
               ∧ pongTimeoutId s' = Some (next_tid s)
               ∧ heartbeat_timers s'
                 = [ {| tid := next_tid s; due := due tm + 5000;
                        cb := PongTimeout; every := None |};
                     {| tid := tid tm; due := due tm + 60000; cb := SendPing;
                        every := Some 60000 |} ]
           | None =>
               sockets s' = sockets s
               ∧ pongReceived s' = pongReceived s
               ∧ pongTimeoutId s' = pongTimeoutId s
               ∧ heartbeat_timers s'
                 = [ {| tid := tid tm; due := due tm + 60000; cb := SendPing;
                        every := Some 60000 |} ]
           end).
Proof.
  intros Hi%inv_reachable. split.
  - intros w o (k & Hk & Hc & ->)%step_Ws_open. simpl state_of.
    set (s1 := set_sockets _ s).
    assert (Hi1 : inv s1) by (by apply (inv_same s)).
    destruct (conn_onopen_fields s1 Hi1) as (_&_&_&_&E&_).
    unfold heartbeat_timers. rewrite E.
    apply (heartbeat_timers_app s1). by repeat constructor.
  - intros tm Hn Hcb. simpl step. rewrite Hn. simpl fmap.
    destruct (open_conn s) as [[w k]|] eqn:Ho.
    + destruct (fire_ping_open s tm w k Hi Hn Hcb Ho)
        as (s' & -> & _ & E1 & _ & E2 & E3 & E4 & _ & E5).
      exists s'. split; [done|]. split; [done|].
      unfold heartbeat_timers, reconnects at 1. rewrite E4. split.
      { apply (reconnects_app s). by repeat constructor. }
      repeat (split; [done|]).
      apply (heartbeat_timers_app s). by repeat constructor.
    + destruct (fire_ping_idle s tm Hi Hn Hcb Ho)
        as (s' & -> & _ & E1 & _ & E2 & E3 & E4 & _ & E5).
      exists s'. split; [done|]. split; [done|].
      unfold heartbeat_timers, reconnects at 1. rewrite E4. split.
      { apply (reconnects_app s). by repeat constructor. }
      repeat (split; [done|]).
      apply (heartbeat_timers_app s). by repeat constructor.
Qed.

Lemma ping_every_minute_while_open_witness :
  ∃ s', step Fire (after (connected_trace ++ [Tick 60000])) = Some (Done s')
        ∧ now s' = 60000
        ∧ transmitted s' = [(60000, lit "ping")]
        ∧ pongReceived s' = false
        ∧ heartbeat_timers s'
          = [ {| tid := 2; due := 65000; cb := PongTimeout; every := None |};
              {| tid := 1; due := 120000; cb := SendPing; every := Some 60000 |} ].
Proof.
  set (s := after (connected_trace ++ [Tick 60000])).
  destruct (ping_every_minute_while_open a_page (connected_trace ++ [Tick 60000])
              s ltac:(vm_compute; reflexivity)) as [_ Ht].
  destruct (Ht {| tid := 1; due := 60000; cb := SendPing; every := Some 60000 |}
              ltac:(vm_compute; reflexivity) eq_refl)
    as (s' & E & Hn & _ & Hm).
  exists s'. split; [exact E|]. split; [exact Hn|].
  destruct (open_conn s) as [[w k]|] eqn:Ho; vm_compute in Ho; [|discriminate].
  injection Ho as <- <-. destruct Hm as (Hs & Hp & _ & Hh).
  unfold transmitted. rewrite Hs. split; [vm_compute; reflexivity|].
  split; [exact Hp|]. rewrite Hh. vm_compute. reflexivity.
Defined.

(** ** A silent server *)

Lemma run_until_fire (n : nat) (t : Z) (s : state) (tm : timer) :
  next_due (timers s) = Some tm -> due tm <= t ->
  run_until (S n) t s = run_until n t (state_of (fire tm s)).
Proof.
  intros Hn Hd. simpl. rewrite Hn.
  by destruct (Z.leb_spec (due tm) t); [|lia].
Qed.

Lemma run_until_idle (n : nat) (t : Z) (s : state) (tm : timer) :
  next_due (timers s) = Some tm -> t < due tm ->
  run_until n t s = Some (set_now (Z.max (now s) t) s).
Proof.
  intros Hn Hd. destruct n; simpl; rewrite Hn;
    by destruct (Z.leb_spec (due tm) t); [lia|].
Qed.

Lemma next_due_pair (a b : timer) : due a <= due b -> next_due [a; b] = Some a.
Proof. intros H. simpl. by destruct (Z.ltb_spec (due b) (due a)); [lia|]. Qed.

(** The pong timeout runs with no pong received: a log line, then the
    exception of [close]; the timer is gone and nothing else has changed. *)
Lemma fire_pong_timeout (s : state) (tm : timer) :
  cb tm = PongTimeout -> every tm = None -> now s <= due tm ->
  pongReceived s = false ->
  ∃ s', fire tm s = Thrown s'
    ∧ sockets s' = sockets s
    ∧ timers s' = filter (fun t => tid t ≠ tid tm) (timers s)
    ∧ now s' = due tm ∧ conn s' = conn s
    ∧ head (logctl s') = Some (lit "Pong timeout! Disconnecting...")
    ∧ pingInterval s' = pingInterval s ∧ pongReceived s' = false
    ∧ pongTimeoutId s' = pongTimeoutId s.
Proof.
  intros Hcb He Hc Hp. unfold fire. rewrite Z.max_r, He, Hcb by done.
  cbn [run_callback]. rewrite pong_timeout_awaiting by done.
  eexists. split; [reflexivity|].
  cbn [sockets timers now conn pingInterval pongReceived pongTimeoutId
       log set_logctl set_timers set_now].
  repeat (split; [done|]). split; [apply log_head|done].
Qed.

(** C2: a connection opens and the server stays silent.  Left alone (no
    reconnect is pending that would replace the connection first), the page
    sends one frame, "ping", 60000 ms after the open notification.  5000 ms
    later, no pong having come, the timeout logs and calls
    [close(1008, "Pong timeout")], which [close] refuses: that turn ends in
    an exception, and at 65000 ms the transport is open as before, no close
    has been asked of it, it is still the current connection, and the one
    timer left is the interval, due for the next ping at 120000 ms. *)
Theorem silent_server_close_is_refused
    (d : document) (es : list event) (s : state) (w : nat) (k : websocket)
    (fuel : nat) :
  run es (page_load d) = Some s ->
  conn s = Some w -> sockets s !! w = Some k -> readyState k = CONNECTING ->
  reconnects s = [] -> (2 <= fuel)%nat ->
  ∃ s1 s2 s3 s4,
    step (Ws_open w) s = Some (Done s1)
    ∧ step Fire s1 = Some (Done s2) ∧ now s2 = now s + 60000
    ∧ step Fire s2 = Some (Thrown s3) ∧ now s3 = now s + 65000
    ∧ run_until fuel (now s + 65000) s1 = Some s4
    ∧ now s4 = now s + 65000
    ∧ sockets s4 !! w
      = Some {| url := url k; readyState := OPEN;
                sent := sent k ++ [(now s + 60000, lit "ping")];
                closes := closes k |}
    ∧ (∀ w', w' ≠ w -> sockets s4 !! w' = sockets s !! w')
    ∧ sockets s3 = sockets s4 ∧ conn s4 = Some w
    ∧ head (logctl s4) = Some (lit "Pong timeout! Disconnecting...")
    ∧ timers s4 = [ {| tid := next_tid s; due := now s + 120000; cb := SendPing;
                       every := Some PING_INTERVAL_MS |} ].
Proof.
  intros Hi%inv_reachable Hc Hk Hr Hrc Hfuel.
  destruct fuel as [|[|n]]; [lia|lia|].
  assert (Hlt : (w < length (sockets s))%nat) by (by eapply lookup_lt_Some).
  set (kO := set_readyState OPEN k).
  set (sA := set_sockets (<[w := kO]> (sockets s)) s).
  assert (HiA : inv sA) by (by apply (inv_same s)).
  exists (conn_onopen sA). set (s1 := conn_onopen sA).
  assert (Hi1 : inv s1) by (by apply inv_conn_onopen).
  destruct (conn_onopen_fields sA HiA) as (A1&A2&A3&A4&A5&A6&A7&A8).
  fold s1 in A1, A2, A3, A4, A5, A6, A7, A8.
  change (reconnects sA) with (reconnects s) in A5. rewrite Hrc in A5.
  cbn [conn sockets next_tid now set_sockets sA app] in A1, A5, A6, A7, A8.
  unfold ping_timer in A5. cbn [next_tid now set_sockets sA] in A5.
  (* the first tick *)
  set (tp := {| tid := next_tid s; due := now s + PING_INTERVAL_MS;
                cb := SendPing; every := Some PING_INTERVAL_MS |}) in *.
  assert (Hn1 : next_due (timers s1) = Some tp) by (by rewrite A5).
  assert (Ho1 : open_conn s1 = Some (w, kO)).
  { unfold open_conn. rewrite A1, Hc, A8, list_lookup_insert_eq by done.
    by rewrite bool_decide_eq_true_2. }
  destruct (fire_ping_open s1 tp w kO Hi1 Hn1 eq_refl Ho1)
    as (s2 & F & B1 & B2 & _ & B3 & _ & B4 & B5 & B6).
  assert (Hr1 : reconnects s1 = []) by (unfold reconnects; by rewrite A5).
  rewrite Hr1 in B4. cbn [app tid due tp] in B4, B6.
  unfold PING_INTERVAL_MS, PONG_TIMEOUT_MS in *.
  (* the pong timeout *)
  set (tq := {| tid := next_tid s1; due := now s + 60000 + 5000;
                cb := PongTimeout; every := None |}) in *.
  assert (Hn2 : next_due (timers s2) = Some tq).
  { rewrite B4. apply next_due_pair. simpl. lia. }
  destruct (fire_pong_timeout s2 tq) as (s3 & G & C1 & C2 & C3 & C4 & C5 & _);
    try done.
  { rewrite B6. simpl. lia. }
  rewrite B4 in C2.
  rewrite filter_cons_False, filter_cons_True in C2 by (simpl; lia).
  rewrite filter_nil in C2. cbn [due tq] in C3.
  (* nothing more before the deadline *)
  exists s2, s3, (set_now (Z.max (now s3) (now s + 65000)) s3).
  split.
  { simpl. by rewrite Hk, bool_decide_eq_true_2. }
  split; [by rewrite <- F; simpl; rewrite Hn1|].
  split; [done|].
  split; [by rewrite <- G; simpl; rewrite Hn2|].
  split; [rewrite C3; lia|].
  split.
  { rewrite (run_until_fire _ _ s1 tp) by (done || (simpl; lia)).
    rewrite F. simpl state_of.
    rewrite (run_until_fire _ _ s2 tq) by (done || (simpl; lia)).
    rewrite G. simpl state_of.
    eapply run_until_idle; [by rewrite C2|]. simpl. lia. }
  cbn [now sockets conn logctl timers set_now]. rewrite C3.
  split; [lia|]. rewrite C1, B2, A8. split.
  { by rewrite list_lookup_insert_eq by (by rewrite !length_insert). }
  split; [intros w' Hw'; by rewrite !list_lookup_insert_ne|].
  split; [done|]. split; [by rewrite C4, B1, A1|]. split; [done|].
  rewrite C2. do 2 f_equal. lia.
Qed.

Lemma silent_server_close_is_refused_witness :
  ∃ s1 s2 s3 s4,
    step (Ws_open 0) (after [Click_connect]) = Some (Done s1)
    ∧ step Fire s1 = Some (Done s2)
    ∧ step Fire s2 = Some (Thrown s3) ∧ now s3 = 65000
    ∧ run_until 2 65000 s1 = Some s4
    ∧ sent <$> sockets s4 !! 0%nat = Some [(60000, lit "ping")]
    ∧ closes <$> sockets s4 !! 0%nat = Some []
    ∧ readyState <$> sockets s4 !! 0%nat = Some OPEN
    ∧ due <$> timers s4 = [120000].
Proof.
  destruct (silent_server_close_is_refused a_page [Click_connect]
              (after [Click_connect]) 0
              (new_websocket (lit "ws://localhost:8080")) 2
              ltac:(vm_compute; reflexivity) ltac:(vm_compute; reflexivity)
              ltac:(vm_compute; reflexivity) ltac:(vm_compute; reflexivity)
              ltac:(vm_compute; reflexivity) ltac:(lia))
    as (s1 & s2 & s3 & s4 & E1 & E2 & _ & E3 & E4 & E5 & _ & E6 & _ & _ & _ & _ & E7).
  replace (now (after [Click_connect])) with 0 in E4, E5, E6, E7
    by (vm_compute; reflexivity).
  exists s1, s2, s3, s4. split; [exact E1|]. split; [exact E2|].
  split; [exact E3|]. split; [exact E4|]. split; [exact E5|].
  rewrite E6, E7. by repeat split.
Defined.

(** * Beyond the heartbeat: the log, the page, the sockets *)

(** ** The size of the log *)

Lemma removelast_take {A} (l : list A) : removelast l = take (length l - 1) l.
Proof.
  induction l as [|a [|b r] IH]; [done|done|].
  change (removelast (a :: b :: r)) with (a :: removelast (b :: r)).
  rewrite IH. simpl. by rewrite Nat.sub_0_r.
Qed.

(** [log] on a control of at most 100 lines keeps the 100 newest, the new
    line first; whatever the control held, it does not grow past 100 lines
    and never loses more than its last line. *)
Lemma log_keeps_newest_100 (m : jsstring) (s : state) :
  ((length (logctl s) <= 100)%nat ->
     logctl (log m s) = take 100 (m :: logctl s))
  ∧ length (logctl (log m s)) = Nat.max (length (logctl s)) (Nat.min 100 (S (length (logctl s))))
  ∧ head (logctl (log m s)) = Some m.
Proof.
  split; [|split; [|apply log_head]]; unfold log; cbn [logctl set_logctl].
  - intros Hl. destruct (Nat.ltb_spec 100 (length (m :: logctl s))) as [Hc|Hc];
      rewrite length_cons in Hc.
    + rewrite removelast_take, length_cons.
      by replace (S (length (logctl s)) - 1)%nat with 100%nat by lia.
    + rewrite take_ge; [done|]. rewrite length_cons. lia.
  - destruct (Nat.ltb_spec 100 (length (m :: logctl s))) as [Hc|Hc];
      rewrite length_cons in Hc.
    + rewrite removelast_take, length_take, !length_cons. lia.
    + rewrite length_cons. lia.
Qed.

Lemma log_keeps_newest_100_witness :
  logctl (log (lit "x") (set_logctl (replicate 100 (lit "old")) (page_load a_page)))
  = lit "x" :: replicate 99 (lit "old").
Proof.
  destruct (log_keeps_newest_100 (lit "x")
              (set_logctl (replicate 100 (lit "old")) (page_load a_page)))
    as [H _].
  rewrite H by (vm_compute; lia). vm_compute. reflexivity.
Defined.

(** What each function writes to the log. *)
Lemma disconnect_logctl (s : state) :
  logctl (disconnect s)
  = match conn s with
    | Some _ => logctl (log (lit "Disconnecting...") s)
    | None => logctl s
    end.
Proof.
  unfold disconnect. destruct (conn s) as [w|]; [|done].
  set (s2 := start_close w None (log (lit "Disconnecting...") s)).
  destruct (update_ui_fields (stopPingPong (set_conn None s2)))
    as (_&_&_&_&_&_&_&_&->&_).
  destruct (stopPingPong_fields (set_conn None s2)) as (_&_&_&_&_&_&_&->).
  cbn [logctl set_conn]. subst s2.
  by destruct (start_close_fields w None (log (lit "Disconnecting...") s))
    as (_&_&_&_&_&_&_&->).
Qed.

Lemma conn_onopen_logctl (s : state) :
  logctl (conn_onopen s) = logctl (log (lit "Connected.") s).
Proof.
  unfold conn_onopen. set (s2 := set_pongReceived true _).
  destruct (update_ui_fields (startPingPong s2)) as (_&_&_&_&_&_&_&_&->&_).
  by destruct (startPingPong_fields s2) as (_&_&_&_&_&_&_&_&->).
Qed.

Lemma conn_onclose_logctl (code : N) (s : state) :
  logctl (conn_onclose code s)
  = logctl (log (lit "Disconnected. Code: " ++ num_to_string code) s).
Proof.
  unfold conn_onclose, set_timer. cbn [snd logctl set_next_tid set_timers].
  set (s2 := set_conn None _).
  destruct (update_ui_fields (stopPingPong s2)) as (_&_&_&_&_&_&_&_&->&_).
  by destruct (stopPingPong_fields s2) as (_&_&_&_&_&_&_&->).
Qed.

Lemma conn_onerror_logctl (s : state) :
  logctl (conn_onerror s) = logctl (log (lit "WebSocket Error occurred.") s).
Proof.
  unfold conn_onerror.
  by destruct (stopPingPong_fields (log (lit "WebSocket Error occurred.") s))
    as (_&_&_&_&_&_&_&->).
Qed.

Lemma sendPing_logctl (s : state) : logctl (state_of (sendPing s)) = logctl s.
Proof.
  destruct (open_conn s) as [[w k]|] eqn:Ho.
  - by rewrite (sendPing_open s w k Ho).
  - by rewrite (sendPing_idle s Ho).
Qed.

Lemma pong_timeout_logctl (s : state) :
  logctl (state_of (pong_timeout s))
  = if pongReceived s then logctl s
    else logctl (log (lit "Pong timeout! Disconnecting...") s).
Proof. rewrite pong_timeout_state. by destruct (pongReceived s). Qed.

Lemma send_click_logctl (s : state) :
  logctl (state_of (send_click s))
  = if bool_decide (trim (text s) = []) then logctl s
    else logctl (log (lit "Sending: " ++ text s) s).
Proof.
  unfold send_click. case_bool_decide; [done|].
  set (s1 := log _ s). destruct (conn s1) as [w|]; [|done].
  destruct (ws_send_fields w (text s) s1) as (_&_&_&_&_&_&_&E&_).
  by destruct (ws_send w (text s) s1).
Qed.

(** A bound on the log that is at least 100 survives every turn. *)
Section log_bound.
Variable B : nat.
Hypothesis HB : (100 <= B)%nat.

Let fits (s : state) : Prop := (length (logctl s) <= B)%nat.

Lemma fits_log (m : jsstring) (s : state) : fits s -> fits (log m s).
Proof.
  unfold fits. intros Hs.
  destruct (log_keeps_newest_100 m s) as (_ & -> & _). lia.
Qed.

Lemma fits_disconnect (s : state) : fits s -> fits (disconnect s).
Proof.
  intros Hs. unfold fits. rewrite disconnect_logctl.
  destruct (conn s); [by apply fits_log|done].
Qed.

Lemma fits_connect (s : state) : fits s -> fits (connect s).
Proof.
  intros Hs. unfold connect. apply fits_log.
  by apply fits_disconnect in Hs.
Qed.

Lemma fits_run_callback (c : callback) (s : state) :
  fits s -> fits (state_of (run_callback c s)).
Proof.
  intros Hs. destruct c; simpl.
  - unfold fits. by rewrite sendPing_logctl.
  - unfold fits. rewrite pong_timeout_logctl.
    destruct (pongReceived s); [done|by apply fits_log].
  - by apply fits_connect.
Qed.

Lemma fits_fire (tm : timer) (s : state) : fits s -> fits (state_of (fire tm s)).
Proof.
  intros Hs. unfold fire. destruct (every tm) as [p|].
  - pose proof (fits_run_callback (cb tm) (set_now (Z.max (now s) (due tm)) s) Hs)
      as Hc.
    destruct (run_callback _ _) as [s'|s']; simpl in *;
      unfold rearm; by case_bool_decide.
  - by apply fits_run_callback.
Qed.

Lemma fits_step (e : event) (s : state) (o : outcome) :
  fits s -> step e s = Some o -> fits (state_of o).
Proof.
  intros Hs. destruct e; simpl.
  - case_bool_decide; [|done]. by intros [= <-].
  - destruct (next_due (timers s)) as [tm|]; [|done].
    intros [= <-]. by apply fits_fire.
  - intros [= <-]. simpl. unfold connect_click.
    destruct (update_ui_fields
                match conn s with
                | Some _ => disconnect s
                | None => connect s
                end) as (_&_&_&_&_&_&_&_&E&_).
    unfold fits. rewrite E.
    destruct (conn s); [by apply fits_disconnect|by apply fits_connect].
  - by intros [= <-].
  - intros [= <-]. unfold fits. rewrite send_click_logctl.
    case_bool_decide; [done|by apply fits_log].
  - intros [= <-]. unfold text_keyup. case_bool_decide; [|done].
    unfold fits. rewrite send_click_logctl.
    case_bool_decide; [done|by apply fits_log].
  - destruct (sockets s !! w); [|done]. case_bool_decide; [|done].
    intros [= <-]. unfold fits. cbn [state_of]. rewrite conn_onopen_logctl.
    by apply fits_log.
  - case_bool_decide; [|done]. intros [= <-]. unfold fits. simpl.
    rewrite conn_onmessage_logctl. by apply fits_log.
  - destruct (sockets s !! w); [|done]. case_bool_decide; [|done].
    intros [= <-]. unfold fits. cbn [state_of]. rewrite conn_onclose_logctl.
    by apply fits_log.
  - destruct (sockets s !! w); [|done]. case_bool_decide; [|done].
    intros [= <-]. unfold fits. cbn [state_of]. rewrite conn_onerror_logctl.
    by apply fits_log.
Qed.

Lemma fits_run (es : list event) (s s' : state) :
  fits s -> run es s = Some s' -> fits s'.
Proof.
  revert s. induction es as [|e r IH]; intros s Hs; simpl.
  - by intros [= <-].
  - destruct (step e s) as [o|] eqn:E; [|done].
    apply IH. by apply (fits_step e s).
Qed.
End log_bound.

(** However long the page runs and whatever happens to it, #log never holds
    more than 100 lines, or than it held when the page was loaded if that
    was more. *)
Theorem log_never_exceeds_100
    (d : document) (es : list event) (s : state) :
  run es (page_load d) = Some s ->
  (length (logctl s) <= Nat.max 100 (length (doc_log d)))%nat.
Proof.
  intros Hr.
  apply (fits_run (Nat.max 100 (length (doc_log d))) ltac:(lia) es (page_load d));
    [|done].
  unfold page_load.
  destruct (update_ui_fields
              {| conn := None; pingInterval := None; pongReceived := true;
                 pongTimeoutId := None; logctl := doc_log d; status := [];
                 connect_label := []; text := doc_text d;
                 protocol := doc_protocol d; host := doc_host d; sockets := [];
                 timers := []; next_tid := 1; now := 0 |})
    as (_&_&_&_&_&_&_&_&->&_).
  simpl. lia.
Qed.

Lemma log_never_exceeds_100_witness :
  (length (logctl (after pinged_trace)) <= 100)%nat.
Proof.
  apply (log_never_exceeds_100 a_page pinged_trace (after pinged_trace)).
  vm_compute. reflexivity.
Defined.

(** ** The second invariant *)

Lemma NoDup_fmap_filter {A B} (f : A -> B) (P : A -> Prop)
    `{!∀ x, Decision (P x)} (l : list A) :
  NoDup (f <$> l) -> NoDup (f <$> filter P l).
Proof.
  induction l as [|a l IH]; [done|]. rewrite fmap_cons, filter_cons.
  intros [Ha Hl]%NoDup_cons. destruct (decide (P a)); [|by apply IH].
  rewrite fmap_cons. apply NoDup_cons. split; [|by apply IH].
  intros (x & Hx & Hin)%list_elem_of_fmap. apply Ha.
  apply list_elem_of_fmap. exists x. split; [done|].
  by apply list_elem_of_filter in Hin as [_ ?].
Qed.

Lemma NoDup_fmap_snoc {A B} (f : A -> B) (l : list A) (x : A) :
  NoDup (f <$> l) -> (∀ y, y ∈ l -> f y ≠ f x) -> NoDup (f <$> (l ++ [x])).
Proof.
  intros Hl Hx. rewrite fmap_app. apply NoDup_app. split; [done|]. split.
  - intros b (y & -> & Hy)%list_elem_of_fmap Hb.
    apply list_elem_of_fmap in Hb as (z & Hz & Hin).
    apply list_elem_of_singleton in Hin as ->. by apply (Hx y).
  - apply NoDup_singleton.
Qed.

Lemma live_same (w : nat) (s s' : state) :
  sockets s' = sockets s -> live w s -> live w s'.
Proof. unfold live. by intros ->. Qed.

Lemma live_insert (w w' : nat) (k' : websocket) (s : state) :
  readyState k' ≠ CLOSED -> live w s ->
  live w (set_sockets (<[w' := k']> (sockets s)) s).
Proof.
  intros Hk (k & Hw & Hn). unfold live. cbn [sockets set_sockets].
  destruct (decide (w' = w)) as [->|Hne].
  - exists k'. split; [|done]. apply list_lookup_insert_eq.
    by eapply lookup_lt_Some.
  - exists k. by rewrite list_lookup_insert_ne.
Qed.

Lemma live_ws_send (w w' : nat) (d : jsstring) (s : state) :
  live w s -> live w (state_of (ws_send w' d s)).
Proof.
  intros Hl. unfold ws_send. destruct (sockets s !! w') as [k|]; [|done].
  destruct (readyState k); try done. by apply live_insert.
Qed.

Lemma stopPingPong_page (s : state) :
  status (stopPingPong s) = status s
  ∧ connect_label (stopPingPong s) = connect_label s
  ∧ text (stopPingPong s) = text s.
Proof.
  unfold stopPingPong.
  destruct (pingInterval s) eqn:E1; simpl;
    destruct (pongTimeoutId s) eqn:E2; simpl; by rewrite ?E1, ?E2.
Qed.

Lemma start_close_page (w : nat) (a : option (N * jsstring)) (s : state) :
  status (start_close w a s) = status s
  ∧ connect_label (start_close w a s) = connect_label s
  ∧ text (start_close w a s) = text s.
Proof.
  unfold start_close. destruct (sockets s !! w) as [k|]; [|done].
  by destruct (readyState k).
Qed.

Lemma ws_send_page (w : nat) (d : jsstring) (s : state) :
  status (state_of (ws_send w d s)) = status s
  ∧ connect_label (state_of (ws_send w d s)) = connect_label s.
Proof.
  unfold ws_send. destruct (sockets s !! w) as [k|]; [|done].
  by destruct (readyState k).
Qed.

Lemma update_ui_shows (s : state) :
  match conn s with
  | None => shows_disconnected (update_ui s)
  | Some _ => shows_connected (update_ui s)
  end.
Proof. unfold update_ui. by destruct (conn s). Qed.

(** [wf] survives whatever keeps [conn] and what the page shows, keeps the
    live sockets live, and only removes timers. *)
Lemma wf_frame (s s' : state) :
  conn s' = conn s -> (∀ w, live w s -> live w s') ->
  (∀ tm, tm ∈ timers s' -> tm ∈ timers s) -> NoDup (tid <$> timers s') ->
  status s' = status s -> connect_label s' = connect_label s ->
  wf s -> wf s'.
Proof.
  intros E1 Hl Hsub Hnd E2 E3 [].
  constructor; unfold shows_disconnected; rewrite ?E1, ?E2, ?E3; eauto.
Qed.

Lemma wf_same (s s' : state) :
  conn s' = conn s -> sockets s' = sockets s -> timers s' = timers s ->
  status s' = status s -> connect_label s' = connect_label s ->
  wf s -> wf s'.
Proof.
  intros E1 E2 E3 E4 E5 Hw. apply (wf_frame s); try done.
  - intros w. by apply live_same.
  - by rewrite E3.
  - rewrite E3. apply (wf_nodup s Hw).
Qed.

(** A state without a connection, with reconnects only, showing
    "disconnected". *)
Lemma wf_torn_down (s s' : state) (extra : list timer) :
  NoDup (tid <$> timers s) -> conn s' = None -> shows_disconnected s' ->
  timers s' = reconnects s ++ extra ->
  Forall (fun t => cb t = Connect ∧ (∀ y, y ∈ timers s -> tid y ≠ tid t)) extra ->
  NoDup (tid <$> extra) ->
  wf s'.
Proof.
  intros Hw E1 Hu E2 Hx Hnx. rewrite Forall_forall in Hx.
  constructor; rewrite ?E1, ?E2; try done.
  - intros tm [Hin|Hin]%elem_of_app Hcb.
    + unfold reconnects in Hin. split_elem. congruence.
    + destruct (Hx tm Hin). congruence.
  - rewrite fmap_app. apply NoDup_app. split.
    { by apply NoDup_fmap_filter. }
    split; [|done].
    intros i (y & -> & Hy)%list_elem_of_fmap (z & Hz & Hin)%list_elem_of_fmap.
    unfold reconnects in Hy. split_elem.
    destruct (Hx z Hin) as [_ Hf]. by apply (Hf y).
Qed.

Lemma wf_page_load (d : document) : wf (page_load d).
Proof.
  unfold page_load. set (s0 := {| conn := None |}).
  pose proof (update_ui_shows s0) as Hu.
  destruct (update_ui_fields s0) as (E1&_&_&_&E2&E3&_).
  constructor; rewrite ?E1, ?E2, ?E3; subst s0; simpl in *.
  - done.
  - intros tm Hin. by split_elem.
  - constructor.
  - done.
Qed.

Lemma wf_disconnect (s : state) : inv s -> wf s -> wf (disconnect s).
Proof.
  intros Hi Hw. destruct (conn s) as [w|] eqn:Hc.
  - destruct (disconnect_fields s) as (E1&_&_&E2&_); [congruence|].
    apply (wf_torn_down s _ []); try done.
    + apply (wf_nodup s Hw).
    + unfold disconnect. rewrite Hc. set (s4 := stopPingPong _).
      pose proof (update_ui_shows s4) as Hu.
      destruct (stopPingPong_fields (set_conn None
                  (start_close w None (log (lit "Disconnecting...") s))))
        as (_&_&E&_).
      fold s4 in E. by rewrite E in Hu.
    + by rewrite E2, app_nil_r, stopPingPong_reconnects.
    + constructor.
  - unfold disconnect. by rewrite Hc.
Qed.

Lemma wf_connect (s : state) : inv s -> wf s -> wf (connect s).
Proof.
  intros Hi Hw. pose proof (wf_disconnect s Hi Hw) as Hd.
  unfold connect. set (s1 := disconnect s) in *.
  constructor; cbn [conn sockets timers log set_logctl set_conn set_sockets].
  - intros w [= <-]. unfold live.
    cbn [conn sockets timers log set_logctl set_conn set_sockets].
    exists (new_websocket
      ((if bool_decide (protocol s1 = lit "https:") then lit "wss://"
        else lit "ws://") ++ host s1)).
    split; [|done]. rewrite lookup_app_r by done.
    by rewrite Nat.sub_diag.
  - done.
  - apply (wf_nodup s1 Hd).
  - done.
Qed.

Lemma wf_update_ui (s : state) :
  (∀ w, conn s = Some w -> live w s) ->
  (∀ tm, tm ∈ timers s -> cb tm = PongTimeout -> conn s ≠ None) ->
  NoDup (tid <$> timers s) -> wf (update_ui s).
Proof.
  intros H1 H2 H3. pose proof (update_ui_shows s) as Hu.
  destruct (update_ui_fields s) as (E1&_&_&_&E2&E3&_).
  constructor; rewrite ?E1, ?E3; try done.
  - intros w Hc. apply (live_same w s); auto.
  - intros Hc. by rewrite Hc in Hu.
Qed.

Lemma wf_connect_click (s : state) : inv s -> wf s -> wf (connect_click s).
Proof.
  intros Hi Hw. unfold connect_click.
  assert (Hx : wf match conn s with
                  | Some _ => disconnect s
                  | None => connect s
                  end).
  { destruct (conn s); [by apply wf_disconnect|by apply wf_connect]. }
  destruct Hx. by apply wf_update_ui.
Qed.

Lemma wf_conn_onopen (s : state) :
  inv s -> (∀ w, conn s = Some w -> live w s) -> NoDup (tid <$> timers s) ->
  wf (conn_onopen s).
Proof.
  intros Hi Hl Hn. destruct (conn_onopen_fields s Hi) as (E1&_&_&_&E5&_&_&E8).
  constructor; rewrite ?E1, ?E5.
  - intros w Hc. apply (live_same w s); auto.
  - intros tm Hin Hcb. unfold reconnects in Hin. split_elem; simpl in *; congruence.
  - apply NoDup_fmap_snoc; [by apply NoDup_fmap_filter|].
    unfold reconnects. intros y Hy. split_elem.
    pose proof (inv_fresh s Hi y Hy). simpl. lia.
  - intros Hc. unfold conn_onopen in *. set (s3 := startPingPong _) in *.
    pose proof (update_ui_shows s3) as Hu.
    destruct (update_ui_fields s3) as (E&_). rewrite <- E, E1, Hc in Hu. done.
Qed.

Lemma conn_onmessage_frame (d : jsstring) (s : state) :
  let s' := conn_onmessage d s in
  conn s' = conn s ∧ sockets s' = sockets s ∧ status s' = status s
  ∧ connect_label s' = connect_label s ∧ text s' = text s
  ∧ (timers s' = timers s
     ∨ ∃ i, timers s' = filter (fun tm => tid tm ≠ i) (timers s)).
Proof.
  unfold conn_onmessage. case_bool_decide; [|by repeat split; try left].
  unfold clear_timer. cbn [pongTimeoutId log set_logctl].
  destruct (pongTimeoutId s) as [i|]; repeat split; try done; [right|left];
    by eauto.
Qed.

Lemma wf_conn_onmessage (d : jsstring) (s : state) :
  wf s -> wf (conn_onmessage d s).
Proof.
  intros Hw. destruct (conn_onmessage_frame d s) as (E1&E2&E3&E4&_&Ht).
  apply (wf_frame s); try done.
  - intros w. by apply live_same.
  - destruct Ht as [->|[i ->]]; [done|]. intros tm Hin. by split_elem.
  - destruct Ht as [->|[i ->]]; [apply (wf_nodup s Hw)|].
    apply NoDup_fmap_filter, (wf_nodup s Hw).
Qed.

Lemma conn_onclose_shows (code : N) (s : state) :
  shows_disconnected (conn_onclose code s).
Proof.
  unfold conn_onclose, set_timer, shows_disconnected.
  cbn [snd status connect_label set_next_tid set_timers].
  set (s3 := stopPingPong _). pose proof (update_ui_shows s3) as Hu.
  destruct (stopPingPong_fields (set_conn None
              (log (lit "Disconnected. Code: " ++ num_to_string code) s)))
    as (_&_&E&_).
  fold s3 in E. by rewrite E in Hu.
Qed.

Lemma wf_conn_onclose (code : N) (s : state) :
  inv s -> NoDup (tid <$> timers s) -> wf (conn_onclose code s).
Proof.
  intros Hi Hn. destruct (conn_onclose_fields code s) as (E1&_&_&E2&_).
  apply (wf_torn_down s _ [reconnect_timer s]); try done.
  - apply conn_onclose_shows.
  - by rewrite E2, stopPingPong_reconnects.
  - repeat constructor. intros y Hy. pose proof (inv_fresh s Hi y Hy).
    simpl. lia.
  - apply NoDup_singleton.
Qed.

Lemma wf_conn_onerror (s : state) : inv s -> wf s -> wf (conn_onerror s).
Proof.
  intros Hi Hw. destruct (conn_onerror_fields s) as (E1&_&_&E2&_&_&_&E3).
  rewrite (stopPingPong_reconnects s Hi) in E2.
  unfold conn_onerror in *.
  destruct (stopPingPong_page (log (lit "WebSocket Error occurred.") s))
    as (P1&P2&_).
  apply (wf_frame s); try done.
  - intros w. by apply live_same.
  - rewrite E2. unfold reconnects. intros tm Hin. by split_elem.
  - rewrite E2. apply NoDup_fmap_filter, (wf_nodup s Hw).
Qed.

Lemma send_click_frame (s : state) :
  let s' := state_of (send_click s) in
  conn s' = conn s ∧ timers s' = timers s ∧ status s' = status s
  ∧ connect_label s' = connect_label s ∧ (∀ w, live w s -> live w s').
Proof.
  unfold send_click. case_bool_decide; [done|].
  set (s1 := log _ s). change (conn s1) with (conn s).
  destruct (conn s) as [w|] eqn:Hc; [|done].
  destruct (ws_send_fields w (text s) s1) as (F1&_&_&_&F2&_).
  destruct (ws_send_page w (text s) s1) as (P1&P2).
  pose proof (fun w' => live_ws_send w' w (text s) s1) as Hl.
  destruct (ws_send w (text s) s1) as [s2|s2]; simpl in *;
    repeat split; try done; try congruence;
    intros w' Hw'; by apply Hl.
Qed.

Lemma wf_send_click (s : state) : wf s -> wf (state_of (send_click s)).
Proof.
  intros Hw. destruct (send_click_frame s) as (E1&E2&E3&E4&Hl).
  apply (wf_frame s); try done.
  - by rewrite E2.
  - rewrite E2. apply (wf_nodup s Hw).
Qed.

Lemma wf_sendPing (s : state) : inv s -> wf s -> wf (state_of (sendPing s)).
Proof.
  intros Hi Hw. destruct (open_conn s) as [[w k]|] eqn:Ho.
  - rewrite (sendPing_open s w k Ho). simpl state_of.
    apply open_conn_Some in Ho as (Hc & Hk & Hr).
    constructor; cbn [conn sockets timers status connect_label
                      set_pongTimeoutId set_next_tid set_timers
                      set_pongReceived set_sockets].
    + intros w' Hw'. apply (live_insert w' w); [simpl; by rewrite Hr|].
      by apply (wf_conn s Hw).
    + intros tm Hin Hcb. by rewrite Hc.
    + apply NoDup_fmap_snoc; [apply (wf_nodup s Hw)|].
      intros y Hy. pose proof (inv_fresh s Hi y Hy). simpl. lia.
    + apply (wf_ui s Hw).
  - by rewrite (sendPing_idle s Ho).
Qed.

Lemma wf_pong_timeout (s : state) : wf s -> wf (state_of (pong_timeout s)).
Proof.
  intros Hw. rewrite pong_timeout_state.
  destruct (pongReceived s); [done|]. by apply (wf_same s).
Qed.

Lemma rearm_page (tm : timer) (p : Z) (s : state) :
  conn (rearm tm p s) = conn s ∧ sockets (rearm tm p s) = sockets s
  ∧ status (rearm tm p s) = status s
  ∧ connect_label (rearm tm p s) = connect_label s
  ∧ text (rearm tm p s) = text s ∧ logctl (rearm tm p s) = logctl s.
Proof. unfold rearm. by case_bool_decide. Qed.

Lemma sendPing_page (s : state) :
  status (state_of (sendPing s)) = status s
  ∧ connect_label (state_of (sendPing s)) = connect_label s
  ∧ text (state_of (sendPing s)) = text s.
Proof.
  destruct (open_conn s) as [[w k]|] eqn:Ho.
  - by rewrite (sendPing_open s w k Ho).
  - by rewrite (sendPing_idle s Ho).
Qed.

Lemma wf_fire (s : state) (tm : timer) :
  inv s -> wf s -> next_due (timers s) = Some tm -> wf (state_of (fire tm s)).
Proof.
  intros Hi Hw Hn. pose proof Hn as [Hin Hmin]%next_due_Some.
  pose proof (inv_clock s Hi tm Hin) as Hc.
  pose proof (inv_every s Hi tm Hin) as He.
  destruct (cb tm) eqn:Ecb.
  - (* the interval *)
    assert (Hfr : ∀ y, y ∈ reconnects s -> tid y ≠ tid tm).
    { unfold reconnects. intros y Hy Heq. split_elem.
      pose proof (inv_interval s Hi y Hy) as H1.
      pose proof (proj1 (inv_interval s Hi tm Hin) Ecb) as H2.
      rewrite Heq in H1. apply H1 in H2. congruence. }
    assert (Hnr : NoDup (tid <$> reconnects s))
      by apply NoDup_fmap_filter, (wf_nodup s Hw).
    assert (Hst : status (state_of (fire tm s)) = status s
                  ∧ connect_label (state_of (fire tm s)) = connect_label s).
    { unfold fire. rewrite He, Ecb. cbn [run_callback].
      set (s0 := set_now _ s). destruct (sendPing_page s0) as (P1&P2&_).
      destruct (sendPing s0) as [s'|s']; simpl in *;
        destruct (rearm_page tm PING_INTERVAL_MS s') as (_&_&->&->&_); done. }
    destruct Hst as [P1 P2].
    destruct (open_conn s) as [[w k]|] eqn:Ho.
    + destruct (fire_ping_open s tm w k Hi Hn Ecb Ho)
        as (s' & F & E1 & E2 & _ & _ & _ & E3 & _).
      rewrite F in *. simpl state_of in *.
      apply open_conn_Some in Ho as (Hcn & Hk & Hr).
      constructor; rewrite ?E1, ?E2, ?E3.
      * intros w' Hw'.
        pose proof (live_insert w' w (add_sent (due tm, lit "ping") k) s) as Hl.
        unfold live in *. cbn [sockets set_sockets] in Hl. rewrite E2.
        apply Hl; [simpl; by rewrite Hr|by apply (wf_conn s Hw)].
      * intros _ _ _. by rewrite Hcn.
      * change [?a; ?b] with ([a] ++ [b]). rewrite app_assoc.
        apply NoDup_fmap_snoc; [apply NoDup_fmap_snoc; [done|]|].
        -- unfold reconnects. intros y Hy. split_elem.
           pose proof (inv_fresh s Hi y Hy). simpl. lia.
        -- intros y [Hy|Hy]%elem_of_app; simpl.
           ++ by apply Hfr.
           ++ apply list_elem_of_singleton in Hy as ->.
              pose proof (inv_fresh s Hi tm Hin). simpl. lia.
      * intros Hx. unfold shows_disconnected. rewrite P1, P2.
        by apply (wf_ui s Hw).
    + destruct (fire_ping_idle s tm Hi Hn Ecb Ho)
        as (s' & F & E1 & E2 & _ & _ & _ & E3 & _).
      rewrite F in *. simpl state_of in *.
      constructor; rewrite ?E1, ?E2, ?E3.
      * intros w' Hw'. apply (live_same w' s); [done|by apply (wf_conn s Hw)].
      * intros t [Ht|Ht]%elem_of_app Hcb.
        -- unfold reconnects in Ht. split_elem. congruence.
        -- apply list_elem_of_singleton in Ht as ->. simpl in Hcb. congruence.
      * apply NoDup_fmap_snoc; [done|]. intros y Hy. simpl. by apply Hfr.
      * intros Hx. unfold shows_disconnected. rewrite P1, P2.
        by apply (wf_ui s Hw).
  - unfold fire. rewrite He, Ecb. cbn [run_callback].
    apply wf_pong_timeout. apply (wf_frame s); try done.
    + cbn [timers set_timers set_now]. intros t Ht. by split_elem.
    + cbn [timers set_timers set_now]. apply NoDup_fmap_filter, (wf_nodup s Hw).
  - unfold fire. rewrite He, Ecb. cbn [run_callback state_of].
    apply wf_connect.
    + apply (inv_frame_clock s); try done;
        cbn [timers now set_timers set_now]; intros t Ht; split_elem; [done|].
      rewrite Z.max_r by done. by apply Hmin.
    + apply (wf_frame s); try done.
      * cbn [timers set_timers set_now]. intros t Ht. by split_elem.
      * cbn [timers set_timers set_now].
        apply NoDup_fmap_filter, (wf_nodup s Hw).
Qed.

Lemma wf_step (e : event) (s : state) (o : outcome) :
  inv s -> wf s -> step e s = Some o -> wf (state_of o).
Proof.
  intros Hi Hw. destruct e; simpl.
  - case_bool_decide; [|done]. intros [= <-]. by apply (wf_same s).
  - destruct (next_due (timers s)) as [tm|] eqn:E; [|done].
    intros [= <-]. by apply wf_fire.
  - intros [= <-]. by apply wf_connect_click.
  - intros [= <-]. by apply (wf_same s).
  - intros [= <-]. by apply wf_send_click.
  - intros [= <-]. unfold text_keyup.
    case_bool_decide; [by apply wf_send_click|done].
  - destruct (sockets s !! w) as [k|] eqn:Hk; [|done].
    case_bool_decide; [|done]. intros [= <-]. cbn [state_of].
    apply wf_conn_onopen.
    + by apply (inv_same s).
    + intros w' Hw'. apply (live_insert w' w); [done|by apply (wf_conn s Hw)].
    + apply (wf_nodup s Hw).
  - case_bool_decide; [|done]. intros [= <-]. by apply wf_conn_onmessage.
  - destruct (sockets s !! w) as [k|] eqn:Hk; [|done].
    case_bool_decide; [|done]. intros [= <-]. cbn [state_of].
    apply wf_conn_onclose; [by apply (inv_same s)|apply (wf_nodup s Hw)].
  - destruct (sockets s !! w) as [k|] eqn:Hk; [|done].
    case_bool_decide; [|done]. intros [= <-]. by apply wf_conn_onerror.
Qed.

Lemma wf_run (es : list event) (s s' : state) :
  inv s -> wf s -> run es s = Some s' -> wf s'.
Proof.
  revert s. induction es as [|e r IH]; intros s Hi Hw; simpl.
  - by intros [= <-].
  - destruct (step e s) as [o|] eqn:E; [|done].
    apply IH; [by apply (inv_step e s)|by apply (wf_step e s)].
Qed.

Lemma wf_reachable (d : document) (es : list event) (s : state) :
  run es (page_load d) = Some s -> wf s.
Proof. apply wf_run; [apply inv_page_load|apply wf_page_load]. Qed.

(** ** What the second invariant gives *)

(** [conn], when set, is a socket the script has created and that has not
    had its close notification: a closed socket is never the current
    connection. *)
Theorem current_connection_is_not_closed
    (d : document) (es : list event) (s : state) (w : nat) :
  run es (page_load d) = Some s -> conn s = Some w ->
  ∃ k, sockets s !! w = Some k ∧ readyState k ≠ CLOSED.
Proof. intros Hw%wf_reachable Hc. by apply (wf_conn s Hw). Qed.

Lemma current_connection_is_not_closed_witness :
  ∃ k, sockets (after timer_replaced_trace) !! 2%nat = Some k
       ∧ readyState k ≠ CLOSED.
Proof.
  apply (current_connection_is_not_closed a_page timer_replaced_trace
           (after timer_replaced_trace) 2);
    vm_compute; reflexivity.
Defined.

(** Whenever [conn] is null the page shows "disconnected" and the button
    reads "Connect"; it never shows "connected" without a connection. *)
Theorem no_connection_shows_disconnected
    (d : document) (es : list event) (s : state) :
  run es (page_load d) = Some s ->
  (conn s = None ->
     status s = lit "disconnected" ∧ connect_label s = lit "Connect")
  ∧ (status s = lit "connected" -> conn s ≠ None).
Proof.
  intros Hw%wf_reachable. split; [apply (wf_ui s Hw)|].
  intros Hs Hc. destruct (wf_ui s Hw Hc) as [Hd _].
  rewrite Hs in Hd. vm_compute in Hd. discriminate.
Qed.

Lemma no_connection_shows_disconnected_witness :
  status (after (pinged_trace ++ [Ws_close 0 1000])) = lit "disconnected"
  ∧ connect_label (after (pinged_trace ++ [Ws_close 0 1000])) = lit "Connect".
Proof.
  destruct (no_connection_shows_disconnected a_page
              (pinged_trace ++ [Ws_close 0 1000])
              (after (pinged_trace ++ [Ws_close 0 1000]))
              ltac:(vm_compute; reflexivity)) as [H _].
  apply H. vm_compute. reflexivity.
Defined.

Lemma disconnect_conn (s : state) : conn (disconnect s) = None.
Proof.
  destruct (conn s) as [w|] eqn:Hc.
  - by destruct (disconnect_fields s) as (E&_); [congruence|].
  - unfold disconnect. by rewrite Hc.
Qed.

Lemma start_close_length (w : nat) (a : option (N * jsstring)) (s : state) :
  length (sockets (start_close w a s)) = length (sockets s).
Proof.
  unfold start_close. destruct (sockets s !! w) as [k|]; [|done].
  destruct (readyState k); try done; cbn [sockets set_sockets];
    by rewrite length_insert.
Qed.

Lemma disconnect_length (s : state) :
  length (sockets (disconnect s)) = length (sockets s).
Proof.
  destruct (conn s) as [w|] eqn:Hc.
  - rewrite (disconnect_sockets s w Hc). apply start_close_length.
  - unfold disconnect. by rewrite Hc.
Qed.

(** The reconnect timer calls [connect()] and nothing updates the page
    after it: the new socket is the current connection, still connecting,
    while the page goes on showing "disconnected" and a button that reads
    "Connect". *)
Theorem reconnect_leaves_page_showing_disconnected
    (d : document) (es : list event) (s : state) (tm : timer) :
  run es (page_load d) = Some s ->
  next_due (timers s) = Some tm -> cb tm = Connect ->
  ∃ s', step Fire s = Some (Done s')
        ∧ conn s' = Some (length (sockets s))
        ∧ ws_readyState (length (sockets s)) s' = Some CONNECTING
        ∧ status s' = lit "disconnected" ∧ connect_label s' = lit "Connect".
Proof.
  intros Hr Hn Hcb. pose proof (inv_reachable d es s Hr) as Hi.
  pose proof (wf_reachable d es s Hr) as Hw.
  pose proof Hn as [Hin Hmin]%next_due_Some.
  pose proof (inv_every s Hi tm Hin) as He. rewrite Hcb in He.
  pose proof (inv_clock s Hi tm Hin) as Hc.
  simpl step. rewrite Hn. simpl fmap. unfold fire. rewrite He, Hcb.
  cbn [run_callback]. eexists. split; [reflexivity|].
  set (x := set_timers _ _).
  assert (Hix : inv x).
  { apply (inv_frame_clock s); try done;
      cbn [timers now set_timers set_now x]; intros t Ht; split_elem; [done|].
    rewrite Z.max_r by done. by apply Hmin. }
  assert (Hwx : wf x).
  { apply (wf_frame s); try done; cbn [timers set_timers set_now x].
    - intros t Ht. by split_elem.
    - apply NoDup_fmap_filter, (wf_nodup s Hw). }
  pose proof (wf_ui _ (wf_disconnect x Hix Hwx) (disconnect_conn x)) as [U1 U2].
  unfold connect, ws_readyState.
  cbn [conn sockets status connect_label log set_logctl set_conn set_sockets].
  rewrite disconnect_length. change (sockets x) with (sockets s).
  split; [done|]. split; [|done].
  rewrite lookup_app_r by (by rewrite disconnect_length).
  rewrite disconnect_length. change (sockets x) with (sockets s).
  by rewrite Nat.sub_diag.
Qed.

Lemma reconnect_leaves_page_showing_disconnected_witness :
  ∃ s', step Fire (after [Click_connect; Ws_close 0 1006; Tick 5000])
        = Some (Done s')
        ∧ conn s' = Some 1%nat ∧ status s' = lit "disconnected".
Proof.
  destruct (reconnect_leaves_page_showing_disconnected a_page
              [Click_connect; Ws_close 0 1006; Tick 5000]
              (after [Click_connect; Ws_close 0 1006; Tick 5000])
              {| tid := 1; due := 5000; cb := Connect; every := None |}
              ltac:(vm_compute; reflexivity) ltac:(vm_compute; reflexivity)
              eq_refl) as (s' & E & Hc & _ & Hs & _).
  exists s'. split; [exact E|]. split; [|exact Hs].
  rewrite Hc. vm_compute. reflexivity.
Defined.

Lemma length_le_1_of_same {A B} (f : A -> B) (l : list A) :
  NoDup (f <$> l) -> (∀ x y, x ∈ l -> y ∈ l -> f x = f y) -> (length l <= 1)%nat.
Proof.
  destruct l as [|a [|b r]]; simpl; [lia|lia|].
  intros Hn Hs. exfalso. apply NoDup_cons in Hn as [Hn _]. apply Hn.
  rewrite (Hs a b) by (repeat constructor). left.
Qed.

(** No two active timers share a handle, and at any time there is at most
    one ping interval and at most one pending pong timeout, however often
    connections were opened, replaced and closed. *)
Theorem at_most_one_interval_and_one_pong_timeout
    (d : document) (es : list event) (s : state) :
  run es (page_load d) = Some s ->
  NoDup (tid <$> timers s)
  ∧ (length (filter (fun tm => cb tm = SendPing) (timers s)) <= 1)%nat
  ∧ (length (filter (fun tm => cb tm = PongTimeout) (timers s)) <= 1)%nat.
Proof.
  intros Hr. pose proof (inv_reachable d es s Hr) as Hi.
  pose proof (wf_reachable d es s Hr) as Hw.
  split; [apply (wf_nodup s Hw)|]. split.
  - apply (length_le_1_of_same tid);
      [apply NoDup_fmap_filter, (wf_nodup s Hw)|].
    intros x y Hx Hy. split_elem.
    pose proof (inv_interval s Hi x Hx). pose proof (inv_interval s Hi y Hy).
    intuition congruence.
  - apply (length_le_1_of_same tid);
      [apply NoDup_fmap_filter, (wf_nodup s Hw)|].
    intros x y Hx Hy. split_elem.
    pose proof (inv_pong s Hi x Hx). pose proof (inv_pong s Hi y Hy).
    intuition congruence.
Qed.

Lemma at_most_one_interval_and_one_pong_timeout_witness :
  (length (filter (fun tm => cb tm = SendPing)
                  (timers (after (timer_replaced_trace ++ [Tick 65000; Fire]))))
   <= 1)%nat.
Proof.
  destruct (at_most_one_interval_and_one_pong_timeout a_page
              (timer_replaced_trace ++ [Tick 65000; Fire])
              (after (timer_replaced_trace ++ [Tick 65000; Fire]))
              ltac:(vm_compute; reflexivity)) as (_ & H & _).
  exact H.
Defined.

(** ** Uncaught exceptions *)

Lemma sendPing_Done (s : state) : ∃ s', sendPing s = Done s'.
Proof.
  destruct (open_conn s) as [[w k]|] eqn:Ho.
  - rewrite (sendPing_open s w k Ho). by eexists.
  - rewrite (sendPing_idle s Ho). by eexists.
Qed.

Lemma send_click_Thrown (s s' : state) :
  wf s -> send_click s = Thrown s' ->
  trim (text s) ≠ []
  ∧ s' = log (lit "Sending: " ++ text s) s
  ∧ (conn s = None
     ∨ ∃ w, conn s = Some w ∧ ws_readyState w s = Some CONNECTING).
Proof.
  intros Hw. unfold send_click. case_bool_decide as Ht; [done|].
  set (s1 := log _ s). change (conn s1) with (conn s).
  destruct (conn s) as [w|] eqn:Hc.
  - destruct (wf_conn s Hw w Hc) as (k & Hk & Hn).
    unfold ws_send, ws_readyState. change (sockets s1) with (sockets s).
    rewrite Hk. destruct (readyState k) eqn:Er; simpl; try done.
    intros [= <-]. split; [done|]. split; [done|]. right. exists w.
    split; [done|]. rewrite Hk. simpl. by rewrite Er.
  - intros [= <-]. by repeat split; try left.
Qed.

(** A turn of the event loop ends in an uncaught exception in two cases
    only.  One is a click on #send or Enter in #text, with text that is not
    blank, while there is no connection or the current one is still
    connecting; the line has then been logged and the text is left in the
    input.  The other is the pong timeout, whose [close(1008, ...)] is
    refused after its line has been logged; it leaves the sockets and [conn]
    as they were.  [sendPing], [connect] and the socket's handlers never
    throw. *)
Theorem only_sending_and_pong_timeout_throw
    (d : document) (es : list event) (s s' : state) (e : event) :
  run es (page_load d) = Some s -> step e s = Some (Thrown s') ->
  ((e = Click_send ∨ e = Keyup 13)
   ∧ trim (text s) ≠ []
   ∧ s' = log (lit "Sending: " ++ text s) s
   ∧ (conn s = None
      ∨ ∃ w, conn s = Some w ∧ ws_readyState w s = Some CONNECTING))
  ∨ (e = Fire
     ∧ ∃ tm, next_due (timers s) = Some tm ∧ cb tm = PongTimeout
         ∧ head (logctl s') = Some (lit "Pong timeout! Disconnecting...")
         ∧ sockets s' = sockets s ∧ conn s' = conn s).
Proof.
  intros Hr. pose proof (inv_reachable d es s Hr) as Hi.
  pose proof (wf_reachable d es s Hr) as Hw. destruct e; simpl.
  - by case_bool_decide.
  - destruct (next_due (timers s)) as [tm|] eqn:Hn; [|done]. simpl.
    pose proof Hn as [Hin Hmin]%next_due_Some.
    pose proof (inv_every s Hi tm Hin) as He.
    pose proof (inv_clock s Hi tm Hin) as Hc.
    destruct (cb tm) eqn:Ecb.
    + unfold fire. rewrite He, Ecb. cbn [run_callback].
      destruct (sendPing_Done (set_now (Z.max (now s) (due tm)) s)) as [x ->].
      done.
    + pose proof (inv_awaiting s Hi tm Hin Ecb) as Hp.
      destruct (fire_pong_timeout s tm Ecb He Hc Hp)
        as (x & -> & E1 & _ & _ & E2 & E3 & _).
      intros [= <-]. right. split; [done|]. by exists tm.
    + unfold fire. by rewrite He, Ecb.
  - done.
  - done.
  - intros [= E]. left. split; [by left|]. by apply send_click_Thrown.
  - unfold text_keyup. case_bool_decide as Hk; [|done]. subst keyCode.
    intros [= E]. left. split; [by right|]. by apply send_click_Thrown.
  - destruct (sockets s !! w); [|done]. by case_bool_decide.
  - by case_bool_decide.
  - destruct (sockets s !! w); [|done]. by case_bool_decide.
  - destruct (sockets s !! w); [|done]. by case_bool_decide.
Qed.

Lemma only_sending_and_pong_timeout_throw_witness :
  let s := after (pinged_trace ++ [Tick 65000]) in
  let s' := log (lit "Pong timeout! Disconnecting...") (set_timers [ping_again] s) in
  step Fire s = Some (Thrown s')
  ∧ (((Fire = Click_send ∨ Fire = Keyup 13)
      ∧ trim (text s) ≠ []
      ∧ s' = log (lit "Sending: " ++ text s) s
      ∧ (conn s = None
         ∨ ∃ w, conn s = Some w ∧ ws_readyState w s = Some CONNECTING))
     ∨ (Fire = Fire
        ∧ ∃ tm, next_due (timers s) = Some tm ∧ cb tm = PongTimeout
            ∧ head (logctl s') = Some (lit "Pong timeout! Disconnecting...")
            ∧ sockets s' = sockets s ∧ conn s' = conn s)).
Proof.
  intros s s'. split; [vm_compute; reflexivity|].
  apply (only_sending_and_pong_timeout_throw a_page
           (pinged_trace ++ [Tick 65000]) s s' Fire);
    vm_compute; reflexivity.
Defined.

(** The heartbeat never closes a connection.  When the pong timeout runs, no
    pong has been received and there is a connection: the test of
    [pongReceived] in the callback never fails and the timeout is always
    logged; then [close(1008, "Pong timeout")] is refused, so the turn ends
    in an exception with every socket, [conn] and the interval as they
    were, and no pong timeout pending. *)
Theorem pong_timeout_never_closes
    (d : document) (es : list event) (s : state) (tm : timer) :
  run es (page_load d) = Some s ->
  next_due (timers s) = Some tm -> cb tm = PongTimeout ->
  pongReceived s = false
  ∧ ∃ w s', conn s = Some w
      ∧ step Fire s = Some (Thrown s')
      ∧ conn s' = Some w
      ∧ head (logctl s') = Some (lit "Pong timeout! Disconnecting...")
      ∧ sockets s' = sockets s
      ∧ pingInterval s' = pingInterval s
      ∧ timers s' = filter (fun t => cb t ≠ PongTimeout) (timers s)
      ∧ now s' = due tm.
Proof.
  intros Hr Hn Hcb. pose proof (inv_reachable d es s Hr) as Hi.
  pose proof (wf_reachable d es s Hr) as Hw.
  pose proof Hn as [Hin Hmin]%next_due_Some.
  pose proof (inv_every s Hi tm Hin) as He. rewrite Hcb in He.
  pose proof (inv_clock s Hi tm Hin) as Hc.
  pose proof (inv_awaiting s Hi tm Hin Hcb) as Hp.
  pose proof (wf_pong s Hw tm Hin Hcb) as Hcn.
  split; [done|]. destruct (conn s) as [w|] eqn:Ew; [|done].
  destruct (fire_pong_timeout s tm Hcb He Hc Hp)
    as (s' & F & E1 & E2 & E3 & E4 & E5 & E6 & _).
  exists w, s'. simpl step. rewrite Hn. simpl fmap. rewrite F.
  split; [done|]. split; [done|]. split; [congruence|].
  repeat (split; [done|]). split; [|done]. rewrite E2.
  apply filter_ext_elem. intros t Ht.
  pose proof (inv_pong s Hi t Ht) as H1.
  pose proof (proj1 (inv_pong s Hi tm Hin) Hcb) as H2.
  split.
  - intros Hne Hcbt. apply H1 in Hcbt. congruence.
  - intros Hne Heq. apply Hne, H1. by rewrite Heq.
Qed.

Lemma pong_timeout_never_closes_witness :
  ∃ w s', conn (after (pinged_trace ++ [Tick 65000])) = Some w
      ∧ step Fire (after (pinged_trace ++ [Tick 65000])) = Some (Thrown s')
      ∧ head (logctl s') = Some (lit "Pong timeout! Disconnecting...")
      ∧ sockets s' = sockets (after (pinged_trace ++ [Tick 65000])).
Proof.
  destruct (pong_timeout_never_closes a_page (pinged_trace ++ [Tick 65000])
              (after (pinged_trace ++ [Tick 65000]))
              {| tid := 2; due := 65000; cb := PongTimeout; every := None |}
              ltac:(vm_compute; reflexivity) ltac:(vm_compute; reflexivity)
              eq_refl) as (_ & w & s' & Hc & E & _ & Hh & Hs & _).
  by exists w, s'.
Defined.

(** ** What is sent, and where *)

Lemma same_sent_refl (s : state) : same_sent s s.
Proof. split; [by eauto|]. intros w k' Hn Hk. congruence. Qed.

Lemma same_sent_eq (s s' : state) : sockets s' = sockets s -> same_sent s s'.
Proof. intros E. unfold same_sent. rewrite E. apply same_sent_refl. Qed.

Lemma same_sent_trans (s1 s2 s3 : state) :
  same_sent s1 s2 -> same_sent s2 s3 -> same_sent s1 s3.
Proof.
  intros [A1 B1] [A2 B2]. split.
  - intros w k1 Hk1. destruct (A1 w k1 Hk1) as (k2 & Hk2 & E2).
    destruct (A2 w k2 Hk2) as (k3 & Hk3 & E3). exists k3. split; congruence.
  - intros w k3 Hn Hk3. destruct (sockets s2 !! w) as [k2|] eqn:E2.
    + destruct (A2 w k2 E2) as (k3' & Hk3' & E3).
      rewrite (B1 w k2 Hn E2) in E3. congruence.
    + by apply (B2 w k3).
Qed.

Lemma same_sent_insert (s : state) (w : nat) (k k' : websocket) :
  sockets s !! w = Some k -> sent k' = sent k ->
  same_sent s (set_sockets (<[w := k']> (sockets s)) s).
Proof.
  intros Hk E. split; cbn [sockets set_sockets].
  - intros w' k0 Hk0. destruct (decide (w = w')) as [<-|Hne].
    + exists k'. split; [|congruence].
      apply list_lookup_insert_eq. by eapply lookup_lt_Some.
    + exists k0. by rewrite list_lookup_insert_ne.
  - intros w' k0 Hn Hk0. destruct (decide (w = w')) as [<-|Hne]; [congruence|].
    rewrite list_lookup_insert_ne in Hk0 by done. congruence.
Qed.

Lemma same_sent_start_close (w : nat) (a : option (N * jsstring)) (s : state) :
  same_sent s (start_close w a s).
Proof.
  unfold start_close. destruct (sockets s !! w) as [k|] eqn:Hk;
    [|apply same_sent_refl].
  destruct (readyState k); try apply same_sent_refl;
    by apply (same_sent_insert s w k).
Qed.

Lemma same_sent_disconnect (s : state) : same_sent s (disconnect s).
Proof.
  destruct (conn s) as [w|] eqn:Hc.
  - split; rewrite (disconnect_sockets s w Hc); apply same_sent_start_close.
  - unfold disconnect. rewrite Hc. apply same_sent_refl.
Qed.

Lemma same_sent_connect (s : state) : same_sent s (connect s).
Proof.
  apply (same_sent_trans s (disconnect s)); [apply same_sent_disconnect|].
  unfold connect. set (s1 := disconnect s). set (k := new_websocket _).
  split; cbn [sockets log set_logctl set_conn set_sockets].
  - intros w k0 Hk0. exists k0. split; [|done].
    rewrite lookup_app_l; [done|]. by eapply lookup_lt_Some.
  - intros w k' Hn Hk'. apply lookup_ge_None in Hn.
    rewrite lookup_app_r in Hk' by done.
    destruct (w - length (sockets s1))%nat; simpl in Hk'; [|done].
    by injection Hk' as <-.
Qed.

Lemma same_sent_pong_timeout (s : state) :
  same_sent s (state_of (pong_timeout s)).
Proof.
  rewrite pong_timeout_state.
  destruct (pongReceived s); [apply same_sent_refl|by apply same_sent_eq].
Qed.

Lemma sendPing_sends (s : state) :
  same_sent s (state_of (sendPing s))
  ∨ sends s (state_of (sendPing s)) (lit "ping").
Proof.
  destruct (open_conn s) as [[w k]|] eqn:Ho.
  - right. rewrite (sendPing_open s w k Ho).
    apply open_conn_Some in Ho as (Hc & Hk & Hr). by exists w, k, (now s).
  - left. rewrite (sendPing_idle s Ho). apply same_sent_refl.
Qed.

Lemma send_click_sends (s : state) :
  same_sent s (state_of (send_click s))
  ∨ (trim (text s) ≠ [] ∧ sends s (state_of (send_click s)) (text s)).
Proof.
  unfold send_click. case_bool_decide as Ht; [left; apply same_sent_refl|].
  set (s1 := log _ s). change (conn s1) with (conn s).
  destruct (conn s) as [w|] eqn:Hc; [|left; by apply same_sent_eq].
  unfold ws_send. change (sockets s1) with (sockets s).
  destruct (sockets s !! w) as [k|] eqn:Hk; [|left; by apply same_sent_eq].
  destruct (readyState k) eqn:Hr; try (left; by apply same_sent_eq).
  right. split; [done|]. exists w, k, (now s).
  repeat (split; [done|]). cbn [bind state_of sockets set_text set_sockets].
  unfold add_sent. by rewrite Hr.
Qed.

Lemma sends_same_start (s0 s s' : state) (p : jsstring) :
  conn s = conn s0 -> sockets s = sockets s0 -> sends s s' p -> sends s0 s' p.
Proof. unfold sends. by intros -> ->. Qed.

Lemma conn_onopen_sockets (s : state) : sockets (conn_onopen s) = sockets s.
Proof.
  unfold conn_onopen. set (s2 := set_pongReceived true _).
  destruct (update_ui_fields (startPingPong s2)) as (_&_&_&_&->&_).
  by destruct (startPingPong_fields s2) as (_&_&_&_&_&_&_&->&_).
Qed.

(** In one turn of the event loop at most one frame is sent.  It goes to
    the current connection, which is open, and it is "ping" when a timer
    ran and the text of #text, not blank, when the user clicked #send or
    pressed Enter.  No other turn sends anything, and nothing is ever sent on
    a socket that is not the current connection. *)
Theorem each_turn_sends_at_most_one_frame
    (e : event) (s : state) (o : outcome) :
  step e s = Some o ->
  same_sent s (state_of o)
  ∨ (e = Fire ∧ sends s (state_of o) (lit "ping"))
  ∨ ((e = Click_send ∨ e = Keyup 13)
     ∧ trim (text s) ≠ [] ∧ sends s (state_of o) (text s)).
Proof.
  destruct e; simpl.
  - case_bool_decide; [|done]. intros [= <-]. left. by apply same_sent_eq.
  - destruct (next_due (timers s)) as [tm|]; [|done]. intros [= <-].
    unfold fire. set (s0 := set_now _ s).
    destruct (every tm) as [p|].
    + assert (Hs : sockets (state_of (map_outcome (rearm tm p)
                                       (run_callback (cb tm) s0)))
                   = sockets (state_of (run_callback (cb tm) s0))).
      { destruct (run_callback (cb tm) s0) as [x|x]; simpl;
          by destruct (rearm_page tm p x) as (_&->&_). }
      destruct (cb tm); cbn [run_callback] in *.
      * destruct (sendPing_sends s0) as [Hx|(w&k&t&?&?&?&Hx)].
        -- left. unfold same_sent in *. by rewrite Hs.
        -- right. left. split; [done|]. exists w, k, t. by rewrite Hs.
      * left. pose proof (same_sent_pong_timeout s0) as Hx.
        unfold same_sent in *. by rewrite Hs.
      * left. pose proof (same_sent_connect s0) as Hx.
        unfold same_sent in *. by rewrite Hs.
    + set (s1 := set_timers _ s0). destruct (cb tm); cbn [run_callback].
      * destruct (sendPing_sends s1) as [Hx|Hx]; [by left|].
        right. left. split; [done|]. by apply (sends_same_start s s1).
      * left. apply (same_sent_pong_timeout s1).
      * left. apply (same_sent_connect s1).
  - intros [= <-]. left. unfold connect_click. cbn [state_of].
    set (x := match conn s with Some _ => disconnect s | None => connect s end).
    apply (same_sent_trans s x).
    + subst x. destruct (conn s);
        [apply same_sent_disconnect|apply same_sent_connect].
    + apply same_sent_eq. by destruct (update_ui_fields x) as (_&_&_&_&->&_).
  - intros [= <-]. left. by apply same_sent_eq.
  - intros [= <-]. destruct (send_click_sends s) as [?|[? ?]]; [by left|].
    right. right. by repeat split; try left.
  - intros [= <-]. unfold text_keyup.
    case_bool_decide as Hk; [|left; apply same_sent_refl]. subst keyCode.
    destruct (send_click_sends s) as [?|[? ?]]; [by left|].
    right. right. by repeat split; try right.
  - destruct (sockets s !! w) as [k|] eqn:Hk; [|done].
    case_bool_decide; [|done]. intros [= <-]. left. cbn [state_of].
    set (sA := set_sockets _ s). apply (same_sent_trans s sA).
    + by apply (same_sent_insert s w k).
    + apply same_sent_eq, conn_onopen_sockets.
  - case_bool_decide; [|done]. intros [= <-]. left. apply same_sent_eq.
    cbn [state_of]. by destruct (conn_onmessage_frame data s) as (_&->&_).
  - destruct (sockets s !! w) as [k|] eqn:Hk; [|done].
    case_bool_decide; [|done]. intros [= <-]. left. cbn [state_of].
    set (sA := set_sockets _ s). apply (same_sent_trans s sA).
    + by apply (same_sent_insert s w k).
    + apply same_sent_eq.
      by destruct (conn_onclose_fields code sA) as (_&_&_&_&_&_&_&->).
  - destruct (sockets s !! w) as [k|] eqn:Hk; [|done].
    case_bool_decide; [|done]. intros [= <-]. left. apply same_sent_eq.
    cbn [state_of]. by destruct (conn_onerror_fields s) as (_&_&_&_&_&_&_&->).
Qed.

Lemma each_turn_sends_at_most_one_frame_witness :
  ∃ o, step Fire (after (connected_trace ++ [Tick 60000])) = Some o
       ∧ (same_sent (after (connected_trace ++ [Tick 60000])) (state_of o)
          ∨ (Fire = Fire
             ∧ sends (after (connected_trace ++ [Tick 60000])) (state_of o)
                     (lit "ping"))
          ∨ ((Fire = Click_send ∨ Fire = Keyup 13)
             ∧ trim (text (after (connected_trace ++ [Tick 60000]))) ≠ []
             ∧ sends (after (connected_trace ++ [Tick 60000])) (state_of o)
                     (text (after (connected_trace ++ [Tick 60000]))))).
Proof.
  eexists. split; [vm_compute; reflexivity|].
  apply each_turn_sends_at_most_one_frame. vm_compute. reflexivity.
Defined.

(** ** Pending reconnects *)

Lemma NoDup_fmap_elem_inj {A B} (f : A -> B) (l : list A) (x y : A) :
  NoDup (f <$> l) -> x ∈ l -> y ∈ l -> f x = f y -> x = y.
Proof.
  induction l as [|a l IH]; [by intros _ ?%elem_of_nil|].
  rewrite fmap_cons. intros [Ha Hl]%NoDup_cons.
  intros [->|Hx]%elem_of_cons [->|Hy]%elem_of_cons E; auto.
  - destruct Ha. rewrite E. by apply list_elem_of_fmap_2.
  - destruct Ha. rewrite <- E. by apply list_elem_of_fmap_2.
Qed.

Lemma reconnects_connect (s : state) :
  inv s -> reconnects (connect s) = reconnects s.
Proof. intros Hi. by rewrite <- (reconnects_disconnect s Hi). Qed.

Lemma elem_of_reconnects (s : state) (tm : timer) :
  tm ∈ reconnects s <-> cb tm = Connect ∧ tm ∈ timers s.
Proof. unfold reconnects. by rewrite list_elem_of_filter. Qed.

(** A scheduled reconnect is never cancelled: it stays pending through
    every turn of the event loop, a click on "Disconnect" included, until
    the turn in which it runs. *)
Theorem reconnect_is_never_cancelled
    (d : document) (es : list event) (s : state) (e : event) (o : outcome)
    (tm : timer) :
  run es (page_load d) = Some s -> step e s = Some o -> tm ∈ reconnects s ->
  tm ∈ reconnects (state_of o) ∨ (e = Fire ∧ next_due (timers s) = Some tm).
Proof.
  intros Hr Hs Htm. pose proof (inv_reachable d es s Hr) as Hi.
  pose proof (wf_reachable d es s Hr) as Hw.
  pose proof Htm as [Hcb Hin]%elem_of_reconnects.
  destruct e; simpl in Hs.
  - case_bool_decide; [|done]. injection Hs as <-. by left.
  - destruct (next_due (timers s)) as [t0|] eqn:Hn; [|done].
    injection Hs as <-. pose proof Hn as [Hin0 Hmin]%next_due_Some.
    destruct (decide (tid tm = tid t0)) as [E|Hti].
    { right. split; [done|]. f_equal. symmetry.
      by apply (NoDup_fmap_elem_inj tid (timers s) tm t0 (wf_nodup s Hw)). }
    left.
    pose proof (inv_every s Hi t0 Hin0) as He.
    pose proof (inv_clock s Hi t0 Hin0) as Hc.
    destruct (cb t0) eqn:Ecb.
    + destruct (open_conn s) as [[w k]|] eqn:Ho.
      * destruct (fire_ping_open s t0 w k Hi Hn Ecb Ho)
          as (s' & -> & _ & _ & _ & _ & _ & E & _).
        apply elem_of_reconnects. split; [done|]. simpl. rewrite E.
        apply elem_of_app. by left.
      * destruct (fire_ping_idle s t0 Hi Hn Ecb Ho)
          as (s' & -> & _ & _ & _ & _ & _ & E & _).
        apply elem_of_reconnects. split; [done|]. simpl. rewrite E.
        apply elem_of_app. by left.
    + unfold fire. rewrite He, Ecb. cbn [run_callback].
      rewrite reconnects_pong_timeout. apply elem_of_reconnects.
      split; [done|]. cbn [timers set_timers set_now].
      by apply list_elem_of_filter.
    + unfold fire. rewrite He, Ecb. cbn [run_callback state_of].
      rewrite reconnects_connect.
      * apply elem_of_reconnects. split; [done|]. cbn [timers set_timers set_now].
        by apply list_elem_of_filter.
      * apply (inv_frame_clock s); try done;
          cbn [timers now set_timers set_now]; intros t Ht; split_elem; [done|].
        rewrite Z.max_r by done. by apply Hmin.
  - injection Hs as <-. left. cbn [state_of]. unfold connect_click.
    set (x := match conn s with Some _ => disconnect s | None => connect s end).
    assert (Hx : reconnects x = reconnects s).
    { subst x. destruct (conn s);
        [by apply reconnects_disconnect|by apply reconnects_connect]. }
    unfold reconnects at 1.
    destruct (update_ui_fields x) as (_&_&_&_&_&->&_). fold (reconnects x).
    by rewrite Hx.
  - injection Hs as <-. by left.
  - injection Hs as <-. left. unfold reconnects.
    destruct (send_click_frame s) as (_&->&_). done.
  - injection Hs as <-. left. unfold text_keyup. case_bool_decide; [|done].
    unfold reconnects. destruct (send_click_frame s) as (_&->&_). done.
  - destruct (sockets s !! w) as [k|]; [|done]. case_bool_decide; [|done].
    injection Hs as <-. left. cbn [state_of]. set (sA := set_sockets _ s).
    assert (HiA : inv sA) by (by apply (inv_same s)).
    destruct (conn_onopen_fields sA HiA) as (_&_&_&_&E&_).
    apply elem_of_reconnects. split; [done|]. rewrite E.
    apply elem_of_app. by left.
  - case_bool_decide; [|done]. injection Hs as <-. left. cbn [state_of].
    destruct (decide (data = lit "pong")) as [->|Hd].
    + destruct (conn_onmessage_pong s Hi) as (_&_&_&E).
      apply elem_of_reconnects. split; [done|]. rewrite E.
      apply list_elem_of_filter. split; [congruence|done].
    + unfold conn_onmessage. by rewrite bool_decide_eq_false_2.
  - destruct (sockets s !! w) as [k|]; [|done]. case_bool_decide; [|done].
    injection Hs as <-. left. cbn [state_of]. set (sA := set_sockets _ s).
    assert (HiA : inv sA) by (by apply (inv_same s)).
    destruct (conn_onclose_timers code sA HiA) as [_ ->].
    apply elem_of_app. by left.
  - destruct (sockets s !! w) as [k|]; [|done]. case_bool_decide; [|done].
    injection Hs as <-. left. cbn [state_of].
    destruct (conn_onerror_fields s) as (_&_&_&E&_).
    unfold reconnects at 1. rewrite E. fold (reconnects (stopPingPong s)).
    by rewrite reconnects_stopPingPong.
Qed.

Lemma reconnect_is_never_cancelled_witness :
  ∃ o, step Click_connect
            (after [Click_connect; Ws_close 0 1006; Click_connect]) = Some o
       ∧ conn (state_of o) = None
       ∧ {| tid := 1; due := 5000; cb := Connect; every := None |}
         ∈ reconnects (state_of o).
Proof.
  set (tm := {| tid := 1; due := 5000; cb := Connect; every := None |}).
  set (s := after [Click_connect; Ws_close 0 1006; Click_connect]).
  assert (Hm : tm ∈ reconnects s).
  { replace (reconnects s) with [tm] by (vm_compute; reflexivity). left. }
  eexists. split; [vm_compute; reflexivity|].
  split; [vm_compute; reflexivity|].
  match goal with
  | |- context [state_of ?o] =>
      destruct (reconnect_is_never_cancelled a_page
                  [Click_connect; Ws_close 0 1006; Click_connect] s
                  Click_connect o tm
                  ltac:(vm_compute; reflexivity) ltac:(vm_compute; reflexivity)
                  Hm) as [H|[H _]]
  end; [assumption|discriminate H].
Defined.

(** ** A ping that is answered *)

(** A ping followed by its pong puts the heartbeat back where it was: the
    pong timeout is cancelled, [pongReceived] is true again, only the
    interval is left (due 60000 ms after the ping), the pending reconnects
    are untouched and no [close] has been called on the connection. *)
Theorem answered_ping_restores_heartbeat
    (d : document) (es : list event) (s : state) (tm : timer) (w : nat)
    (k : websocket) :
  run es (page_load d) = Some s ->
  next_due (timers s) = Some tm -> cb tm = SendPing ->
  open_conn s = Some (w, k) ->
  ∃ s1 s2,
    step Fire s = Some (Done s1)
    ∧ step (Ws_message w (lit "pong")) s1 = Some (Done s2)
    ∧ pongReceived s2 = true
    ∧ heartbeat_timers s2
      = [ {| tid := tid tm; due := due tm + 60000; cb := SendPing;
             every := Some 60000 |} ]
    ∧ reconnects s2 = reconnects s
    ∧ sockets s2 !! w = Some (add_sent (due tm, lit "ping") k)
    ∧ conn s2 = Some w.
Proof.
  intros Hr Hn Hcb Ho. pose proof (inv_reachable d es s Hr) as Hi.
  destruct (fire_ping_open s tm w k Hi Hn Hcb Ho)
    as (s1 & F & E1 & E2 & _ & _ & _ & E3 & _).
  assert (Hi1 : inv s1).
  { change s1 with (state_of (Done s1)). rewrite <- F. by apply inv_fire. }
  apply open_conn_Some in Ho as (Hc & Hk & Hro).
  assert (Hlt : (w < length (sockets s))%nat) by (by eapply lookup_lt_Some).
  exists s1, (conn_onmessage (lit "pong") s1).
  split; [simpl; by rewrite Hn; simpl; rewrite F|]. split.
  { simpl. rewrite bool_decide_eq_true_2; [done|].
    unfold ws_readyState. rewrite E2, list_lookup_insert_eq by done.
    simpl. by rewrite Hro. }
  destruct (conn_onmessage_pong s1 Hi1) as (P1 & _ & _ & P2).
  destruct (conn_onmessage_frame (lit "pong") s1) as (Q1 & Q2 & _).
  assert (Ht : timers (conn_onmessage (lit "pong") s1)
               = reconnects s
                 ++ [ {| tid := tid tm; due := due tm + 60000; cb := SendPing;
                         every := Some 60000 |} ]).
  { rewrite P2, E3, filter_app. f_equal.
    apply filter_all. unfold reconnects. intros t Ht. split_elem. congruence. }
  split; [done|]. unfold heartbeat_timers, reconnects at 1.
  rewrite Ht, Q1, Q2, E1, E2. split.
  { apply (heartbeat_timers_app s). by repeat constructor. }
  split.
  { apply (reconnects_app s). by repeat constructor. }
  split; [by apply list_lookup_insert_eq|done].
Qed.

Lemma answered_ping_restores_heartbeat_witness :
  ∃ s1 s2,
    step Fire (after (connected_trace ++ [Tick 60000])) = Some (Done s1)
    ∧ step (Ws_message 0 (lit "pong")) s1 = Some (Done s2)
    ∧ pongReceived s2 = true
    ∧ heartbeat_timers s2
      = [ {| tid := 1; due := 120000; cb := SendPing; every := Some 60000 |} ].
Proof.
  destruct (answered_ping_restores_heartbeat a_page
              (connected_trace ++ [Tick 60000])
              (after (connected_trace ++ [Tick 60000]))
              {| tid := 1; due := 60000; cb := SendPing; every := Some 60000 |}
              0 (set_readyState OPEN (new_websocket (lit "ws://localhost:8080")))
              ltac:(vm_compute; reflexivity) ltac:(vm_compute; reflexivity)
              eq_refl ltac:(vm_compute; reflexivity))
    as (s1 & s2 & F1 & F2 & Hp & Hh & _).
  exists s1, s2. by repeat split.
Defined.

(** ** Connecting *)

Lemma stopPingPong_location (s : state) :
  protocol (stopPingPong s) = protocol s ∧ host (stopPingPong s) = host s.
Proof.
  unfold stopPingPong.
  destruct (pingInterval s) eqn:E1; simpl;
    destruct (pongTimeoutId s) eqn:E2; simpl; by rewrite ?E1, ?E2.
Qed.

Lemma disconnect_location (s : state) :
  protocol (disconnect s) = protocol s ∧ host (disconnect s) = host s.
Proof.
  unfold disconnect. destruct (conn s) as [w|]; [|done].
  set (s2 := start_close w None (log (lit "Disconnecting...") s)).
  assert (E : protocol s2 = protocol s ∧ host s2 = host s).
  { subst s2. unfold start_close. simpl.
    destruct (sockets s !! w) as [k|]; [|done]. by destruct (readyState k). }
  destruct (stopPingPong_location (set_conn None s2)) as [E1 E2].
  unfold update_ui.
  destruct (conn (stopPingPong (set_conn None s2))); simpl;
    by rewrite E1, E2.
Qed.

Lemma connect_fields (s : state) :
  conn (connect s) = Some (length (sockets s))
  ∧ length (sockets (connect s)) = S (length (sockets s))
  ∧ sockets (connect s) !! length (sockets s)
    = Some (new_websocket
              ((if bool_decide (protocol s = lit "https:") then lit "wss://"
                else lit "ws://") ++ host s))
  ∧ (∀ w, conn s ≠ Some w -> (w < length (sockets s))%nat ->
       sockets (connect s) !! w = sockets s !! w)
  ∧ now (connect s) = now (disconnect s).
Proof.
  destruct (disconnect_location s) as [L1 L2].
  unfold connect. rewrite L1, L2.
  cbn [conn sockets now log set_logctl set_conn set_sockets].
  rewrite length_app, !disconnect_length. split; [done|].
  split; [simpl; lia|]. split.
  { rewrite lookup_app_r by (by rewrite disconnect_length).
    by rewrite disconnect_length, Nat.sub_diag. }
  split; [|done].
  intros w Hw Hlt. rewrite lookup_app_l by (by rewrite disconnect_length).
  destruct (conn s) as [c|] eqn:Hc; [|unfold disconnect; by rewrite Hc].
  rewrite (disconnect_sockets s c Hc). unfold start_close.
  destruct (sockets s !! c) as [k|]; [|done].
  destruct (readyState k); try done; cbn [sockets set_sockets];
    rewrite list_lookup_insert_ne; congruence.
Qed.

(** [connect()] creates exactly one socket and makes it the current
    connection.  Its address is "wss://" for a page served over "https:" and
    "ws://" for any other, followed by the host of the page and nothing
    else; it starts connecting, and every socket other than the connection
    it replaces is left as it was. *)
Theorem connect_opens_one_socket (s : state) :
  let n := length (sockets s) in
  let uri := (if bool_decide (protocol s = lit "https:") then lit "wss://"
              else lit "ws://") ++ host s in
  conn (connect s) = Some n
  ∧ length (sockets (connect s)) = S n
  ∧ sockets (connect s) !! n
    = Some {| url := uri; readyState := CONNECTING; sent := []; closes := [] |}
  ∧ (∀ w, conn s ≠ Some w -> (w < n)%nat ->
       sockets (connect s) !! w = sockets s !! w)
  ∧ head (logctl (connect s)) = Some (lit "Connecting...").
Proof.
  intros n uri. destruct (connect_fields s) as (C1 & C2 & C3 & C4 & _).
  repeat (split; [done|]). apply (log_head (lit "Connecting...")).
Qed.

Lemma connect_opens_one_socket_witness :
  url <$> sockets (connect (page_load
                     {| doc_protocol := lit "https:"; doc_host := lit "example.org";
                        doc_log := []; doc_text := [] |})) !! 0%nat
  = Some (lit "wss://example.org")
  ∧ url <$> sockets (connect (page_load a_page)) !! 0%nat
    = Some (lit "ws://localhost:8080").
Proof.
  split.
  - destruct (connect_opens_one_socket (page_load
                {| doc_protocol := lit "https:"; doc_host := lit "example.org";
                   doc_log := []; doc_text := [] |})) as (_ & _ & H & _).
    replace 0%nat with (length (sockets (page_load
                {| doc_protocol := lit "https:"; doc_host := lit "example.org";
                   doc_log := []; doc_text := [] |}))) at 1 by reflexivity.
    rewrite H. vm_compute. reflexivity.
  - destruct (connect_opens_one_socket (page_load a_page)) as (_ & _ & H & _).
    replace 0%nat with (length (sockets (page_load a_page))) at 1 by reflexivity.
    rewrite H. vm_compute. reflexivity.
Defined.

(** A click on "Connect" followed by a click on "Disconnect": there is no
    current connection again, the socket just created is closing after a
    single [close()], the page shows "disconnected", no heartbeat timer is
    left and the pending reconnects are as before. *)
Theorem connect_then_disconnect
    (d : document) (es : list event) (s : state) :
  run es (page_load d) = Some s -> conn s = None ->
  let s2 := connect_click (connect_click s) in
  conn s2 = None
  ∧ sockets s2 !! length (sockets s)
    = Some {| url := (if bool_decide (protocol s = lit "https:")
                      then lit "wss://" else lit "ws://") ++ host s;
              readyState := CLOSING; sent := [];
              closes := [(now s, None)] |}
  ∧ status s2 = lit "disconnected" ∧ connect_label s2 = lit "Connect"
  ∧ heartbeat_timers s2 = [] ∧ reconnects s2 = reconnects s.
Proof.
  intros Hr Hc s2. pose proof (inv_reachable d es s Hr) as Hi.
  assert (Hd : disconnect s = s) by (unfold disconnect; by rewrite Hc).
  subst s2. remember (connect_click s) as s1 eqn:E0.
  set (s2 := connect_click s1).
  assert (Hi1 : inv s1) by (rewrite E0; by apply inv_connect_click).
  destruct (connect_fields s) as (C1 & C2 & C3 & _ & C5). rewrite Hd in C5.
  assert (E1 : s1 = update_ui (connect s))
    by (rewrite E0; unfold connect_click; by rewrite Hc).
  destruct (update_ui_fields (connect s))
    as (U1 & _ & _ & _ & U2 & U3 & _ & U4 & _).
  rewrite <- E1 in U1, U2, U3, U4.
  assert (Hc1 : conn s1 = Some (length (sockets s))) by congruence.
  assert (E2 : s2 = update_ui (disconnect s1)).
  { unfold s2, connect_click. by rewrite Hc1. }
  destruct (update_ui_fields (disconnect s1))
    as (V1 & _ & _ & _ & V2 & V3 & _).
  pose proof (update_ui_shows (disconnect s1)) as Vs.
  rewrite <- E2 in V1, V2, V3, Vs. rewrite disconnect_conn in V1, Vs.
  destruct Vs as [S1 S2].
  split; [done|]. split.
  { rewrite V2, (disconnect_sockets s1 _ Hc1). unfold start_close.
    rewrite U2, C3. cbn [readyState new_websocket sockets set_sockets].
    rewrite list_lookup_insert_eq by (rewrite C2; lia).
    by rewrite U4, C5. }
  split; [done|]. split; [done|].
  destruct (disconnect_fields s1) as (_&_&_&D&_); [congruence|].
  unfold heartbeat_timers, reconnects at 1. rewrite V3, D.
  split; [by apply (heartbeat_timers_stopPingPong s1)|].
  fold (reconnects (stopPingPong s1)). rewrite (reconnects_stopPingPong s1 Hi1).
  unfold reconnects at 1. rewrite U3. fold (reconnects (connect s)).
  by apply reconnects_connect.
Qed.

Lemma connect_then_disconnect_witness :
  conn (connect_click (connect_click (page_load a_page))) = None
  ∧ readyState <$> sockets (connect_click (connect_click (page_load a_page)))
                   !! 0%nat = Some CLOSING.
Proof.
  destruct (connect_then_disconnect a_page [] (page_load a_page) eq_refl eq_refl)
    as (H1 & H2 & _).
  split; [exact H1|].
  replace 0%nat with (length (sockets (page_load a_page))) by reflexivity.
  by rewrite H2.
Defined.

(** ** Blank text *)

Lemma trim_start_nil (t : jsstring) :
  trim_start t = [] <-> forallb is_white_space t = true.
Proof.
  induction t as [|c r IH]; simpl; [done|].
  destruct (is_white_space c); simpl; [done|]. split; discriminate.
Qed.

Lemma trim_start_head (t : jsstring) :
  trim_start t = []
  ∨ ∃ c r, trim_start t = c :: r ∧ is_white_space c = false.
Proof.
  induction t as [|c r IH]; simpl; [by left|].
  destruct (is_white_space c) eqn:E; [done|]. right. by exists c, r.
Qed.

Lemma trim_nil (t : jsstring) :
  trim t = [] <-> forallb is_white_space t = true.
Proof.
  rewrite <- trim_start_nil. unfold trim. split.
  - intros H. apply (f_equal (@rev N)) in H. rewrite rev_involutive in H.
    simpl in H. apply trim_start_nil in H.
    destruct (trim_start_head t) as [|(c & r & E & Hc)]; [done|].
    rewrite E in H. rewrite forallb_forall in H.
    specialize (H c). rewrite Hc in H. discriminate H.
    apply in_rev. rewrite rev_involutive. by left.
  - by intros ->.
Qed.

(** The guard of the send handler lets a text through exactly when one of
    its characters is not white space: a text of white space only (spaces,
    tabs, line ends, no-break spaces, ...) is dropped without a trace, any
    other text is logged as being sent, whole and untrimmed. *)
Theorem send_guard_is_all_white_space (s : state) :
  (forallb is_white_space (text s) = true -> send_click s = Done s)
  ∧ (forallb is_white_space (text s) = false ->
       head (logctl (state_of (send_click s)))
       = Some (lit "Sending: " ++ text s)).
Proof.
  split.
  - intros H%trim_nil. unfold send_click. by rewrite bool_decide_eq_true_2.
  - intros H. rewrite send_click_logctl, bool_decide_eq_false_2.
    + apply log_head.
    + intros Ht%trim_nil. congruence.
Qed.

Lemma send_guard_is_all_white_space_witness :
  let blank := set_text [32; 9; 160; 10; 8232; 12288]%N (after connected_trace) in
  let padded := set_text (lit " hi ") (after connected_trace) in
  send_click blank = Done blank
  ∧ head (logctl (state_of (send_click padded))) = Some (lit "Sending:  hi ").
Proof.
  intros blank padded.
  destruct (send_guard_is_all_white_space blank) as [Hb _].
  destruct (send_guard_is_all_white_space padded) as [_ Hp].
  split; [apply Hb; reflexivity|]. by rewrite Hp.
Defined.

(** ** A pong from anywhere *)

(** The message handler does not look at the socket a frame came in on: a
    "pong" delivered by any open socket, the current connection or not,
    cancels the pending pong timeout and sets [pongReceived], and leaves
    [conn], the sockets, the ping interval and the reconnects alone. *)
Theorem pong_on_any_socket_cancels_timeout
    (d : document) (es : list event) (s : state) (w : nat) (o : outcome) :
  run es (page_load d) = Some s ->
  step (Ws_message w (lit "pong")) s = Some o ->
  pongReceived (state_of o) = true
  ∧ timers (state_of o) = filter (fun tm => cb tm ≠ PongTimeout) (timers s)
  ∧ conn (state_of o) = conn s ∧ sockets (state_of o) = sockets s.
Proof.
  intros Hi%inv_reachable. simpl. case_bool_decide; [|done].
  intros [= <-]. cbn [state_of].
  destruct (conn_onmessage_pong s Hi) as (P1 & _ & _ & P2).
  by destruct (conn_onmessage_frame (lit "pong") s) as (Q1 & Q2 & _).
Qed.

Lemma pong_on_any_socket_cancels_timeout_witness :
  let es := timer_replaced_trace
            ++ [Ws_close 1 1006; Tick 10000; Fire; Ws_open 3; Tick 70000; Fire] in
  ∃ o, step (Ws_message 2 (lit "pong")) (after es) = Some o
       ∧ conn (after es) = Some 3%nat
       ∧ length (filter (fun tm => cb tm = PongTimeout) (timers (after es)))
         = 1%nat
       ∧ filter (fun tm => cb tm = PongTimeout) (timers (state_of o)) = [].
Proof.
  intros es. eexists. split; [vm_compute; reflexivity|].
  split; [vm_compute; reflexivity|]. split; [vm_compute; reflexivity|].
  match goal with
  | |- context [state_of ?o] =>
      destruct (pong_on_any_socket_cancels_timeout a_page es (after es) 2 o
                  ltac:(vm_compute; reflexivity) ltac:(vm_compute; reflexivity))
        as (_ & Ht & _)
  end.
  rewrite Ht. vm_compute. reflexivity.
Defined.

(** ** The current connection is never closing *)









